(** * SearchService: multi-source content search and relevance ranking

    A shallow embedding of [SearchService] (the search engine of the
    TextExtractor application) together with the record types of
    [types] that it consumes, and the properties of the engine that its
    specification states.

    Conventions of the model.

    - A JavaScript string is a sequence of UTF-16 code units.  The model
      uses [string], whose characters are the 256 values of [ascii], read
      as the code units U+0000 to U+00FF (Latin-1).  On that range
      [toLowerCase] works unit by unit and preserves the length.  Beyond
      it one character, U+0130, lowers to two units: for a text that
      holds it the offsets that [searchInText] finds in the lowered text
      are not offsets of the text.  The properties that need the two to
      agree (the context of a match holds the term; the score of a
      candidate of a text is at least 0.85) state it as the hypothesis
      [keeps_offsets].
    - A JavaScript number is modelled by [number]: an exact rational, or
      [NaN].  Rounding of binary floating point is not modelled; the
      infinities are left out (see [Number.div]).
    - [Set<string>] is a [gset string].
    - [Array.prototype.sort] is a stable sort driven by the sign of the
      comparator; it is modelled by a stable insertion sort. *)

From Stdlib Require Import Ascii String List Arith ZArith QArith Lia Lqa.
From Stdlib Require Import Sorting.Sorted Sorting.Permutation DecimalString.
From stdpp Require Import base decidable option list gmap strings.

Local Open Scope string_scope.
Local Open Scope list_scope.
Local Open Scope nat_scope.

(** ** Code units *)

Module CodeUnit.

Definition code (c : ascii) : nat := nat_of_ascii c.

Definition between (lo hi n : nat) : bool := (lo <=? n) && (n <=? hi).

(** [A-Z] *)
Definition is_upper (c : ascii) : bool := between 65 90 (code c).
(** [a-z] *)
Definition is_lower (c : ascii) : bool := between 97 122 (code c).
(** [0-9] *)
Definition is_digit (c : ascii) : bool := between 48 57 (code c).

(** The class [\w] of a regular expression without the [u] and [i]
    flags: [[A-Za-z0-9_]]. *)
Definition is_word (c : ascii) : bool :=
  is_upper c || is_lower c || is_digit c || (code c =? 95).

(** The class [\s] restricted to U+0000..U+00FF: TAB, LF, VT, FF, CR,
    SPACE and NO-BREAK SPACE. *)
Definition is_space (c : ascii) : bool :=
  between 9 13 (code c) || (code c =? 32) || (code c =? 160).

(** Upper-case letters of Latin-1: [A-Z], and U+00C0..U+00DE but the
    multiplication sign U+00D7.  Each maps to the unit 32 above it. *)
Definition has_lower (c : ascii) : bool :=
  is_upper c || (between 192 222 (code c) && negb (code c =? 215)).

Definition toLowerCase (c : ascii) : ascii :=
  if has_lower c then ascii_of_nat (code c + 32) else c.


End CodeUnit.

(** ** Strings *)

Module Str.

Fixpoint map (f : ascii -> ascii) (s : string) : string :=
  match s with
  | EmptyString => EmptyString
  | String c s' => String (f c) (map f s')
  end.

Fixpoint forallb (p : ascii -> bool) (s : string) : bool :=
  match s with
  | EmptyString => true
  | String c s' => p c && forallb p s'
  end.

Fixpoint drop (n : nat) (s : string) : string :=
  match n, s with
  | O, _ => s
  | S _, EmptyString => EmptyString
  | S n', String _ s' => drop n' s'
  end.

Fixpoint take (n : nat) (s : string) : string :=
  match n, s with
  | O, _ => EmptyString
  | S _, EmptyString => EmptyString
  | S n', String c s' => String c (take n' s')
  end.

(** [String.prototype.toLowerCase] on the code units U+0000..U+00FF,
    where it maps unit to unit. *)
Definition toLowerCase (s : string) : string := map CodeUnit.toLowerCase s.

(** [s.substring(start, end)] for [0 <= start <= end]; [end] is clamped
    to the length as in JavaScript. *)
Definition substring (s : string) (start end_ : nat) : string :=
  take (end_ - start) (drop start s).

(** [s] starts with [pat]. *)
Fixpoint startsWith (pat s : string) : bool :=
  match pat, s with
  | EmptyString, _ => true
  | String _ _, EmptyString => false
  | String a pat', String b s' => Ascii.eqb a b && startsWith pat' s'
  end.

(** The least offset at which [pat] starts in [s], counted from [k]. *)
Fixpoint find (pat s : string) (k : nat) : option nat :=
  if startsWith pat s then Some k
  else match s with
       | EmptyString => None
       | String _ s' => find pat s' (S k)
       end.

(** [s.indexOf(pat, from)]: [from] is clamped to the length of [s];
    [None] stands for [-1]. *)
Definition indexOf (s pat : string) (from : nat) : option nat :=
  find pat (drop from s) (Nat.min from (String.length s)).

(** [s.includes(pat)] *)
Definition includes (s pat : string) : bool :=
  match indexOf s pat 0 with Some _ => true | None => false end.

(** The string is truthy: it is not empty. *)
Definition truthy (s : string) : bool :=
  match s with EmptyString => false | _ => true end.

(** An optional string is truthy: it is present and not empty. *)
Definition present (o : option string) : option string :=
  match o with
  | Some s => if truthy s then Some s else None
  | None => None
  end.

(** A number in a template literal. *)
Definition of_nat (n : nat) : string := NilEmpty.string_of_uint (Nat.to_uint n).

End Str.

(** ** Numbers *)

Inductive number : Type :=
| NaN
| Num (q : Q).

Module Number.

Definition of_nat (n : nat) : number := Num (inject_Z (Z.of_nat n)).
Definition of_Z (z : Z) : number := Num (inject_Z z).

Definition add (a b : number) : number :=
  match a, b with Num x, Num y => Num (x + y) | _, _ => NaN end.

Definition sub (a b : number) : number :=
  match a, b with Num x, Num y => Num (x - y) | _, _ => NaN end.

Definition mul (a b : number) : number :=
  match a, b with Num x, Num y => Num (x * y) | _, _ => NaN end.

(** [a / b].  Zero divided by zero is [NaN].  A non-zero number divided
    by zero is an infinity in JavaScript; the one division of the
    engine is [position / fullText.length] with
    [position <= fullText.length], where the dividend is zero whenever
    the divisor is, so the infinities are not part of [number] and that
    case is given [NaN] too. *)
Definition div (a b : number) : number :=
  match a, b with
  | Num x, Num y => if Qeq_bool y 0 then NaN else Num (x / y)
  | _, _ => NaN
  end.

(** The lesser of two rationals. *)
Definition qmin (x y : Q) : Q := if Qle_bool x y then x else y.

(** [Math.min(a, b)] *)
Definition min (a b : number) : number :=
  match a, b with
  | Num x, Num y => Num (qmin x y)
  | _, _ => NaN
  end.

(** [a >= b]; every comparison with [NaN] is false. *)
Definition geb (a b : number) : bool :=
  match a, b with Num x, Num y => Qle_bool y x | _, _ => false end.

(** [a > b] *)
Definition gtb (a b : number) : bool :=
  match a, b with Num x, Num y => negb (Qle_bool x y) | _, _ => false end.

(** [a < b] *)
Definition ltb (a b : number) : bool := gtb b a.

(** The value of a comparator is at most zero; [Array.prototype.sort]
    reads [NaN] as [+0]. *)
Definition nonpositive (a : number) : bool :=
  match a with Num x => Qle_bool x 0 | NaN => true end.

Definition is_nan (a : number) : bool :=
  match a with NaN => true | Num _ => false end.

(** Equality of values, up to the representation of the fraction. *)
Definition equiv (a b : number) : Prop :=
  match a, b with
  | Num x, Num y => (x == y)%Q
  | NaN, NaN => True
  | _, _ => False
  end.

(** [lo <= a <= hi] as numbers; false of [NaN]. *)
Definition within (lo hi : Q) (a : number) : Prop :=
  match a with Num x => (lo <= x /\ x <= hi)%Q | NaN => False end.

End Number.

(** ** Tokenizer *)

(** [.replace(/[^\w\s]/g, ' ')] on one code unit. *)
Definition blank_nonword (c : ascii) : ascii :=
  if CodeUnit.is_word c || CodeUnit.is_space c then c else " "%char.

Definition starts_with_space (s : string) : bool :=
  match s with
  | String c _ => CodeUnit.is_space c
  | EmptyString => false
  end.

(** [.split(/\s+/)]: the pieces between the maximal runs of white space.
    A run at the very start or the very end of the string leaves an
    empty piece there, and the empty string splits into one empty
    piece. *)
Fixpoint split_spaces (s : string) : list string :=
  match s with
  | EmptyString => [EmptyString]
  | String c s' =>
      match split_spaces s' with
      | piece :: rest =>
          if CodeUnit.is_space c
          then if starts_with_space s' then piece :: rest
               else EmptyString :: piece :: rest
          else String c piece :: rest
      | [] => []
      end
  end.

Definition preprocessQuery (query : string) : list string :=
  List.filter (fun term => 2 <? String.length term)
    (split_spaces (Str.map blank_nonword (Str.toLowerCase query))).

(** The characters of a normalized term: [[a-z0-9_]]. *)
Definition is_term_char (c : ascii) : bool :=
  CodeUnit.is_lower c || CodeUnit.is_digit c || (CodeUnit.code c =? 95).

(** The characters that the specification allows in a term: [[a-z0-9]]. *)
Definition is_lower_alnum (c : ascii) : bool :=
  CodeUnit.is_lower c || CodeUnit.is_digit c.

(** ** Data model ([types]) *)

Record FileMetadata : Type := {
  title : option string;
  author : option string;
  language : option string
}.

Record ExtractedImage : Type := {
  image_id : string;
  image_uri : string;
  ocrText : option string
}.

Record ExtractedTable : Type := {
  table_id : string;
  headers : list string;
  rows : list (list string)
}.

Record ExtractedContent : Type := {
  text : string;
  images : list ExtractedImage;
  tables : list ExtractedTable;
  metadata : FileMetadata;
  summary : option string;
  keywords : option (list string);
  topics : option (list string)
}.

Record ExtractedFile : Type := {
  id : string;
  name : string;
  type : string;
  extractedContent : ExtractedContent
}.

Inductive MatchType : Type := MatchText | MatchOcr | MatchMetadata.

Record SearchResult : Type := {
  fileId : string;
  fileName : string;
  content : string;
  relevanceScore : number;
  matchType : MatchType;
  context : string
}.

Inductive SortOption : Type :=
| SortName | SortDate | SortSize | SortType | SortRelevance.

(** Every option may be left out; [search] supplies the defaults.
    [maxResults] is an integer and [threshold] a finite number. *)
Record SearchOptions : Type := {
  includeText : option bool;
  includeOCR : option bool;
  includeMetadata : option bool;
  sortBy : option SortOption;
  maxResults : option Z;
  threshold : option Q
}.

(** The options object [{}]. *)
Definition no_options : SearchOptions :=
  {| includeText := None; includeOCR := None; includeMetadata := None;
     sortBy := None; maxResults := None; threshold := None |}.

(** ** The engine ([SearchService]) *)

(** [array.push(...items)] *)
Definition push {A : Type} (array items : list A) : list A := array ++ items.

(** The elements of an array with their indices, as a counting [for]
    loop visits them. *)
Definition indexed {A : Type} (l : list A) : list (nat * A) :=
  combine (seq 0 (length l)) l.

(** [array.slice(0, end)] for an integer [end]: a negative [end] counts
    from the end of the array. *)
Definition slice0 {A : Type} (array : list A) (end_ : Z) : list A :=
  let len := Z.of_nat (length array) in
  let final := if (end_ <? 0)%Z then Z.max (len + end_) 0 else Z.min end_ len in
  take (Z.to_nat final) array.

(** *** Sorting *)

Section Sort.
Context {A : Type} (compare : A -> A -> number).

(** [x] goes in front of the first element that it does not follow. *)
Fixpoint insert (x : A) (sorted : list A) : list A :=
  match sorted with
  | [] => [x]
  | y :: rest =>
      if Number.nonpositive (compare x y) then x :: sorted
      else y :: insert x rest
  end.

(** [array.sort(compare)]: the stable sort of [array]. *)
Definition sort (array : list A) : list A := fold_right insert [] array.
End Sort.

(** *** Regular expressions built from a term *)

(** The matches of the literal pattern [pat] in [s] that a global search
    finds from [lastIndex] on: after a match the search resumes at its
    end, and one unit further after an empty match. *)
Fixpoint count_matches (fuel : nat) (s pat : string) (lastIndex : nat) : nat :=
  match fuel with
  | O => 0
  | S fuel' =>
      if String.length s <? lastIndex then 0
      else match Str.indexOf s pat lastIndex with
           | None => 0
           | Some i =>
               S (count_matches fuel' s pat (i + Nat.max 1 (String.length pat)))
           end
  end.

(** [(s.match(new RegExp(pattern, 'g')) || []).length] for a [pattern]
    free of syntax characters, which is compiled to the literal
    [pattern].  Every term of [preprocessQuery] is such a pattern.  The
    search makes at most [length s + 1] matches. *)
Definition match_count (s pattern : string) : nat :=
  count_matches (String.length s + 2) s pattern 0.


Section SearchService.

(** [String.prototype.localeCompare]: the collation of the host, which
    the language leaves to the implementation. *)
Variable localeCompare : string -> string -> Z.

Definition extractContext (text : string) (position matchLength : nat) : string :=
  let contextLength := 150 in
  let start := Nat.max 0 (position - contextLength / 2) in
  let end_ := Nat.min (String.length text) (position + matchLength + contextLength / 2) in
  let context := Str.substring text start end_ in
  let context := if 0 <? start then "..." +:+ context else context in
  let context := if end_ <? String.length text then context +:+ "..." else context in
  context.

Definition calculateRelevanceScore (term fullText context : string) : number :=
  let score := Num 0.5 in
  let score :=
    if Str.includes (Str.toLowerCase context) (Str.toLowerCase term)
    then Number.add score (Num 0.3) else score in
  let termCount := match_count (Str.toLowerCase fullText) (Str.toLowerCase term) in
  let score :=
    Number.add score (Number.min (Num 0.2) (Number.mul (Number.of_nat termCount) (Num 0.05))) in
  let position := Str.indexOf (Str.toLowerCase fullText) (Str.toLowerCase term) 0 in
  let score :=
    match position with
    | Some position =>
        let relativePosition :=
          Number.div (Number.of_nat position) (Number.of_nat (String.length fullText)) in
        Number.add score (Number.mul (Number.sub (Num 1) relativePosition) (Num 0.1))
    | None => score
    end in
  Number.min (Num 1) score.

Definition deduplicate_key (result : SearchResult) : string :=
  fileId result +:+ "-" +:+ content result.

Fixpoint deduplicate_from (seen : gset string) (results : list SearchResult)
  : list SearchResult :=
  match results with
  | [] => []
  | result :: rest =>
      let key := deduplicate_key result in
      if bool_decide (key ∈ seen) then deduplicate_from seen rest
      else result :: deduplicate_from ({[key]} ∪ seen) rest
  end.

Definition deduplicateResults (results : list SearchResult) : list SearchResult :=
  deduplicate_from ∅ results.

(** The [while] loop of [searchInText] for one term, started at
    [index]: the candidates of the occurrences found from there on. *)
Fixpoint scan_term (fuel : nat) (text textLower term termLower : string)
    (fileId fileName : string) (matchType : MatchType) (index : nat)
  : list SearchResult :=
  match fuel with
  | O => []
  | S fuel' =>
      match Str.indexOf textLower termLower index with
      | None => []
      | Some index =>
          let context := extractContext text index (String.length termLower) in
          let relevanceScore := calculateRelevanceScore term text context in
          {| fileId := fileId; fileName := fileName; content := context;
             relevanceScore := relevanceScore; matchType := matchType;
             context := context |}
          :: scan_term fuel' text textLower term termLower fileId fileName matchType
               (index + String.length termLower)
      end
  end.

(** The loop runs at most once per code unit of the text, as the terms
    are not empty. *)
Definition searchInText (query text fileId fileName : string) (matchType : MatchType)
  : list SearchResult :=
  let queryTerms := preprocessQuery query in
  let textLower := Str.toLowerCase text in
  let results :=
    fold_left
      (fun results term =>
         let termLower := Str.toLowerCase term in
         push results
           (scan_term (S (String.length text)) text textLower term termLower
              fileId fileName matchType 0))
      queryTerms [] in
  deduplicateResults results.

Definition searchInMetadata (query : string) (file : ExtractedFile) : list SearchResult :=
  let metadata := metadata (extractedContent file) in
  let queryLower := Str.toLowerCase query in
  let results := [] in
  let results :=
    match Str.present (title metadata) with
    | Some title =>
        if Str.includes (Str.toLowerCase title) queryLower
        then push results
               [{| fileId := id file; fileName := name file; content := title;
                   relevanceScore := Num 0.9; matchType := MatchMetadata;
                   context := "Title: " +:+ title |}]
        else results
    | None => results
    end in
  let results :=
    match Str.present (author metadata) with
    | Some author =>
        if Str.includes (Str.toLowerCase author) queryLower
        then push results
               [{| fileId := id file; fileName := name file; content := author;
                   relevanceScore := Num 0.8; matchType := MatchMetadata;
                   context := "Author: " +:+ author |}]
        else results
    | None => results
    end in
  results.

Definition searchInTable (query : string) (table : ExtractedTable)
    (fileId fileName : string) : list SearchResult :=
  let queryLower := Str.toLowerCase query in
  let results :=
    fold_left
      (fun results header =>
         if Str.includes (Str.toLowerCase header) queryLower
         then push results
                [{| fileId := fileId; fileName := fileName; content := header;
                    relevanceScore := Num 0.7; matchType := MatchText;
                    context := "Table header: " +:+ header |}]
         else results)
      (headers table) [] in
  fold_left
    (fun results '(rowIndex, row) =>
       fold_left
         (fun results '(colIndex, cell) =>
            if Str.includes (Str.toLowerCase cell) queryLower
            then push results
                   [{| fileId := fileId; fileName := fileName; content := cell;
                       relevanceScore := Num 0.6; matchType := MatchText;
                       context :=
                         "Table cell (Row " +:+ Str.of_nat (rowIndex + 1) +:+
                         ", Col " +:+ Str.of_nat (colIndex + 1) +:+ "): " +:+ cell |}]
            else results)
         (indexed row) results)
    (indexed (rows table)) results.

Definition searchInKeywords (query : string) (keywords : list string)
    (fileId fileName : string) : list SearchResult :=
  let queryLower := Str.toLowerCase query in
  fold_left
    (fun results keyword =>
       if Str.includes (Str.toLowerCase keyword) queryLower
       then push results
              [{| fileId := fileId; fileName := fileName; content := keyword;
                  relevanceScore := Num 0.8; matchType := MatchText;
                  context := "Keyword: " +:+ keyword |}]
       else results)
    keywords [].

Definition calculateSemanticSimilarity (query text : string) : number :=
  let queryWords : gset string := list_to_set (preprocessQuery query) in
  let textWords : gset string := list_to_set (preprocessQuery text) in
  let intersection : gset string :=
    list_to_set
      (List.filter (fun word => bool_decide (word ∈ textWords)) (elements queryWords)) in
  let union : gset string := list_to_set (elements queryWords ++ elements textWords) in
  if 0 <? size union
  then Number.div (Number.of_nat (size intersection)) (Number.of_nat (size union))
  else Num 0.

Definition sortResults (results : list SearchResult) (sortBy : SortOption)
  : list SearchResult :=
  match sortBy with
  | SortRelevance =>
      sort (fun a b => Number.sub (relevanceScore b) (relevanceScore a)) results
  | SortName =>
      sort (fun a b => Number.of_Z (localeCompare (fileName a) (fileName b))) results
  | _ => results
  end.

(** The body of the loop over the files: what one file adds to
    [results]. *)
Definition search_file (query : string) (includeText includeOCR includeMetadata : bool)
    (results : list SearchResult) (file : ExtractedFile) : list SearchResult :=
  let extracted := extractedContent file in
  (* Search in text content *)
  let results :=
    if includeText && Str.truthy (text extracted)
    then push results (searchInText query (text extracted) (id file) (name file) MatchText)
    else results in
  (* Search in OCR text from images *)
  let results :=
    if includeOCR
    then fold_left
           (fun results image =>
              match Str.present (ocrText image) with
              | Some ocrText =>
                  push results (searchInText query ocrText (id file) (name file) MatchOcr)
              | None => results
              end)
           (images extracted) results
    else results in
  (* Search in metadata *)
  let results :=
    if includeMetadata then push results (searchInMetadata query file) else results in
  (* Search in tables *)
  let results :=
    fold_left
      (fun results table => push results (searchInTable query table (id file) (name file)))
      (tables extracted) results in
  (* Search in summary and keywords *)
  let results :=
    match Str.present (summary extracted) with
    | Some summary =>
        push results (searchInText query summary (id file) (name file) MatchText)
    | None => results
    end in
  let results :=
    match keywords extracted with
    | Some keywords =>
        push results (searchInKeywords query keywords (id file) (name file))
    | None => results
    end in
  results.

(** The candidates of all files, before the threshold is applied. *)
Definition collect (query : string) (files : list ExtractedFile) (options : SearchOptions)
  : list SearchResult :=
  let includeText := default true (includeText options) in
  let includeOCR := default true (includeOCR options) in
  let includeMetadata := default true (includeMetadata options) in
  fold_left (search_file query includeText includeOCR includeMetadata) files [].

Definition search (query : string) (files : list ExtractedFile) (options : SearchOptions)
  : list SearchResult :=
  let sortBy := default SortRelevance (sortBy options) in
  let maxResults := default 50%Z (maxResults options) in
  let threshold := default 0.1%Q (threshold options) in
  let results := collect query files options in
  (* Filter by relevance threshold *)
  let filteredResults :=
    List.filter (fun result => Number.geb (relevanceScore result) (Num threshold)) results in
  (* Sort results *)
  let sortedResults := sortResults filteredResults sortBy in
  (* Limit results *)
  slice0 sortedResults maxResults.

End SearchService.

(** ** The scoring formula in closed form *)

Definition relevance_formula (term fullText context : string) : Q :=
  let exact : Q :=
    if Str.includes (Str.toLowerCase context) (Str.toLowerCase term) then 0.3%Q else 0%Q in
  let termOccurrenceCount :=
    match_count (Str.toLowerCase fullText) (Str.toLowerCase term) in
  let frequency : Q :=
    Number.qmin 0.2 (inject_Z (Z.of_nat termOccurrenceCount) * 0.05) in
  let positional : Q :=
    match Str.indexOf (Str.toLowerCase fullText) (Str.toLowerCase term) 0 with
    | Some firstOccurrenceOffset =>
        ((1 - inject_Z (Z.of_nat firstOccurrenceOffset)
              / inject_Z (Z.of_nat (String.length fullText))) * 0.1)%Q
    | None => 0%Q
    end in
  Number.qmin 1 (0.5 + exact + frequency + positional).

(** ** The matchers of one file *)

Definition text_candidates (query : string) (includeText : bool) (file : ExtractedFile)
  : list SearchResult :=
  if includeText && Str.truthy (text (extractedContent file))
  then searchInText query (text (extractedContent file)) (id file) (name file) MatchText
  else [].

Definition ocr_candidates (query : string) (includeOCR : bool) (file : ExtractedFile)
  : list SearchResult :=
  if includeOCR
  then flat_map
         (fun image =>
            match Str.present (ocrText image) with
            | Some ocrText => searchInText query ocrText (id file) (name file) MatchOcr
            | None => []
            end)
         (images (extractedContent file))
  else [].

Definition metadata_candidates (query : string) (includeMetadata : bool)
    (file : ExtractedFile) : list SearchResult :=
  if includeMetadata then searchInMetadata query file else [].

Definition table_candidates (query : string) (file : ExtractedFile) : list SearchResult :=
  flat_map (fun table => searchInTable query table (id file) (name file))
    (tables (extractedContent file)).

Definition summary_candidates (query : string) (file : ExtractedFile) : list SearchResult :=
  match Str.present (summary (extractedContent file)) with
  | Some summary => searchInText query summary (id file) (name file) MatchText
  | None => []
  end.

Definition keyword_candidates (query : string) (file : ExtractedFile) : list SearchResult :=
  match keywords (extractedContent file) with
  | Some keywords => searchInKeywords query keywords (id file) (name file)
  | None => []
  end.

(** The order in which [search] calls the matchers: text, OCR, metadata,
    tables, summary, keywords. *)
Definition candidates_in_call_order (query : string) (options : SearchOptions)
    (file : ExtractedFile) : list SearchResult :=
  text_candidates query (default true (includeText options)) file
  ++ ocr_candidates query (default true (includeOCR options)) file
  ++ metadata_candidates query (default true (includeMetadata options)) file
  ++ table_candidates query file
  ++ summary_candidates query file
  ++ keyword_candidates query file.

(** The order in which the specification lists the matchers: text, OCR,
    summary, metadata, tables, keywords. *)
Definition candidates_in_listed_order (query : string) (options : SearchOptions)
    (file : ExtractedFile) : list SearchResult :=
  text_candidates query (default true (includeText options)) file
  ++ ocr_candidates query (default true (includeOCR options)) file
  ++ summary_candidates query file
  ++ metadata_candidates query (default true (includeMetadata options)) file
  ++ table_candidates query file
  ++ keyword_candidates query file.

(** The fields that are compared with the raw query: title and author
    when metadata is searched, the headers and the cells of the tables,
    the keywords. *)
Definition raw_fields (includeMetadata : bool) (file : ExtractedFile) : list string :=
  let extracted := extractedContent file in
  (if includeMetadata
   then option_list (Str.present (title (metadata extracted)))
        ++ option_list (Str.present (author (metadata extracted)))
   else [])
  ++ flat_map (fun table => headers table ++ concat (rows table)) (tables extracted)
  ++ match keywords extracted with Some keywords => keywords | None => [] end.

(** The same options with another threshold. *)
Definition with_threshold (options : SearchOptions) (threshold : Q) : SearchOptions :=
  {| includeText := includeText options; includeOCR := includeOCR options;
     includeMetadata := includeMetadata options; sortBy := sortBy options;
     maxResults := maxResults options; threshold := Some threshold |}.

(** The options that switch off every switchable scan. *)
Definition all_scans_off (sortBy : option SortOption) (maxResults : option Z)
    (threshold : option Q) : SearchOptions :=
  {| includeText := Some false; includeOCR := Some false; includeMetadata := Some false;
     sortBy := sortBy; maxResults := maxResults; threshold := threshold |}.

(** ** Orders on results *)

(** The score of [a] is at least the score of [b]. *)
Definition score_ge (a b : SearchResult) : Prop :=
  Number.geb (relevanceScore a) (relevanceScore b) = true.

(** [a] does not follow [b] in the collation [localeCompare]. *)
Definition name_le (localeCompare : string -> string -> Z) (a b : SearchResult) : Prop :=
  (localeCompare (fileName a) (fileName b) <= 0)%Z.

(** The name of [a] does not follow the name of [b] in the lexicographic
    order of the code units, which tells the case of letters. *)
Definition name_le_code_units (a b : SearchResult) : Prop :=
  String.leb (fileName a) (fileName b) = true.

(** A comparator is consistent in sign when two elements are never each
    strictly after the other. *)
Definition sign_consistent (localeCompare : string -> string -> Z) : Prop :=
  forall a b, (0 < localeCompare a b)%Z -> (localeCompare b a <= 0)%Z.

Definition Z_of_comparison (c : comparison) : Z :=
  match c with Lt => (-1)%Z | Eq => 0%Z | Gt => 1%Z end.

(** A collation that compares letters before their case, as the
    collations of the hosts do ("a" sorts before "B"); equal letters are
    told apart by case, lower case first. *)
Definition collate_letters_first (a b : string) : Z :=
  match String.compare (Str.toLowerCase a) (Str.toLowerCase b) with
  | Eq => Z_of_comparison (String.compare b a)
  | c => Z_of_comparison c
  end.

(** ** Sample documents *)

Definition no_metadata : FileMetadata :=
  {| title := None; author := None; language := None |}.

(** A file that holds a full text and nothing else. *)
Definition text_file (id name text : string) : ExtractedFile :=
  {| id := id; name := name; type := "txt";
     extractedContent :=
       {| text := text; images := []; tables := []; metadata := no_metadata;
          summary := None; keywords := None; topics := None |} |}.

Definition revenue_text : string :=
  "The quarterly revenue report shows revenue growth in Q1 2023.".

Definition people_table (table_id : string) : ExtractedTable :=
  {| table_id := table_id; headers := ["Name"; "Amount"];
     rows := [["Alice"; "100"]; ["Bob"; "200"]] |}.

(** A file whose table is its only content. *)
Definition table_file : ExtractedFile :=
  {| id := "f1"; name := "people.xlsx"; type := "xlsx";
     extractedContent :=
       {| text := ""; images := []; tables := [people_table "t1"];
          metadata := no_metadata; summary := None; keywords := None; topics := None |} |}.

(** A file with a title and a summary that both mention revenue. *)
Definition titled_file : ExtractedFile :=
  {| id := "f2"; name := "report.pdf"; type := "pdf";
     extractedContent :=
       {| text := ""; images := []; tables := [];
          metadata := {| title := Some "Revenue"; author := None; language := None |};
          summary := Some "All about revenue"; keywords := None; topics := None |} |}.

(** A file with matches in every field. *)
Definition full_file : ExtractedFile :=
  {| id := "f3"; name := "budget.pdf"; type := "pdf";
     extractedContent :=
       {| text := "The budget was approved.";
          images := [{| image_id := "i1"; image_uri := "i1.png";
                        ocrText := Some "Budget 2023" |}];
          tables := [{| table_id := "t1"; headers := ["Item"; "Budget"];
                        rows := [["Travel"; "budget line"]] |}];
          metadata := {| title := Some "Budget plan"; author := Some "Budget office";
                         language := None |};
          summary := Some "A budget summary"; keywords := Some ["budget"; "plan"];
          topics := None |} |}.

(** The candidate of a cell of a table. *)
Definition cell_candidate (fileId fileName cell : string) (row col : nat) : SearchResult :=
  {| fileId := fileId; fileName := fileName; content := cell;
     relevanceScore := Num 0.6; matchType := MatchText;
     context := "Table cell (Row " +:+ Str.of_nat row +:+ ", Col " +:+ Str.of_nat col
                +:+ "): " +:+ cell |}.

(** No field of the file but its tables mentions [needle], whatever the
    case of the letters. *)
Definition silent_outside_tables (needle : string) (file : ExtractedFile) : Prop :=
  let extracted := extractedContent file in
  let silent field := Str.includes (Str.toLowerCase field) needle = false in
  let silent_option field := match field with Some field => silent field | None => True end in
  silent (text extracted)
  /\ Forall (fun image => silent_option (ocrText image)) (images extracted)
  /\ silent_option (title (metadata extracted))
  /\ silent_option (author (metadata extracted))
  /\ silent_option (summary extracted)
  /\ match keywords extracted with
     | Some keywords => Forall silent keywords
     | None => True
     end.

(** A candidate of the file called [fileName]. *)
Definition named_result (fileName : string) (score : Q) : SearchResult :=
  {| fileId := fileName; fileName := fileName; content := fileName;
     relevanceScore := Num score; matchType := MatchText; context := fileName |}.

(** A candidate carries a number. *)
Definition scored (r : SearchResult) : Prop := Number.is_nan (relevanceScore r) = false.

(** ** The other entry points of [SearchService] *)

(** [s.split(/[...]+/)] for a class [sep] of separators: the pieces
    between the maximal runs of separators. *)
Fixpoint split_runs (sep : ascii -> bool) (s : string) : list string :=
  match s with
  | EmptyString => [EmptyString]
  | String c s' =>
      match split_runs sep s' with
      | piece :: rest =>
          if sep c
          then if match s' with String c' _ => sep c' | EmptyString => false end
               then piece :: rest
               else EmptyString :: piece :: rest
          else String c piece :: rest
      | [] => []
      end
  end.

(** The class [[.!?]]. *)
Definition ends_sentence (c : ascii) : bool :=
  let n := CodeUnit.code c in (n =? 46) || (n =? 33) || (n =? 63).

Fixpoint trimStart (s : string) : string :=
  match s with
  | String c s' => if CodeUnit.is_space c then trimStart s' else s
  | EmptyString => EmptyString
  end.

Fixpoint trimEnd (s : string) : string :=
  match s with
  | String c s' =>
      match trimEnd s' with
      | EmptyString => if CodeUnit.is_space c then EmptyString else String c EmptyString
      | rest => String c rest
      end
  | EmptyString => EmptyString
  end.

(** [s.trim()]; on U+0000..U+00FF the white space that it strips is the
    class [\s]. *)
Definition trim (s : string) : string := trimEnd (trimStart s).

Definition extractRelevantContext (query text : string) : string :=
  let sentences := split_runs ends_sentence text in
  let queryTerms := preprocessQuery query in
  let relevantSentences :=
    List.filter
      (fun sentence =>
         let sentenceLower := Str.toLowerCase sentence in
         existsb (fun term => Str.includes sentenceLower term) queryTerms)
      sentences in
  if 0 <? length relevantSentences
  then trim (String.concat ". " (take 2 relevantSentences)) +:+ "."
  else Str.substring text 0 200 +:+ "...".

(** What [semanticSearch] pushes for one file. *)
Definition semantic_file (query : string) (results : list SearchResult)
    (file : ExtractedFile) : list SearchResult :=
  let extracted := extractedContent file in
  (* Calculate semantic similarity for full text *)
  let results :=
    if Str.truthy (text extracted)
    then
      let similarity := calculateSemanticSimilarity query (text extracted) in
      if Number.gtb similarity (Num 0.1)
      then push results
             [{| fileId := id file; fileName := name file;
                 content := Str.substring (text extracted) 0 200 +:+ "...";
                 relevanceScore := similarity; matchType := MatchText;
                 context := extractRelevantContext query (text extracted) |}]
      else results
    else results in
  (* Check summary for semantic similarity *)
  let results :=
    match Str.present (summary extracted) with
    | Some summary =>
        let similarity := calculateSemanticSimilarity query summary in
        if Number.gtb similarity (Num 0.2)
        then push results
               [{| fileId := id file; fileName := name file; content := summary;
                   relevanceScore := similarity; matchType := MatchText;
                   context := summary |}]
        else results
    | None => results
    end in
  results.

(** [ExtractedFile] with the two fields that only [advancedSearch]
    reads: the size, and the upload date as its time value in
    milliseconds. *)
Record StoredFile : Type := {
  stored : ExtractedFile;
  file_size : Q;
  uploadDate : Z
}.

Record DateRange : Type := { range_start : Z; range_end : Z }.

Record SizeRange : Type := { range_min : Q; range_max : Q }.

Record AdvancedSearchCriteria : Type := {
  criteria_query : option string;
  fileTypes : option (list string);
  dateRange : option DateRange;
  sizeRange : option SizeRange;
  authors : option (list string);
  languages : option (list string);
  criteria_topics : option (list string);
  searchOptions : option SearchOptions
}.

(** [array.includes(x)] on strings. *)
Definition includes_string (array : list string) (x : string) : bool :=
  existsb (String.eqb x) array.

Record SearchFacets : Type := {
  facet_fileTypes : gmap string nat;
  facet_languages : gmap string nat;
  facet_topics : gmap string nat;
  facet_authors : gmap string nat
}.

(** [map.set(key, (map.get(key) || 0) + 1)] *)
Definition increment (map : gmap string nat) (key : string) : gmap string nat :=
  <[key := default 0 (map !! key) + 1]> map.

(** The callback of [files.forEach] in [getFacets]. *)
Definition facets_file (facets : SearchFacets) (file : ExtractedFile) : SearchFacets :=
  let fileTypes := increment (facet_fileTypes facets) (type file) in
  let language :=
    default "unknown" (Str.present (language (metadata (extractedContent file)))) in
  let languages := increment (facet_languages facets) language in
  let authors :=
    match Str.present (author (metadata (extractedContent file))) with
    | Some author => increment (facet_authors facets) author
    | None => facet_authors facets
    end in
  let topics :=
    match topics (extractedContent file) with
    | Some topics => fold_left increment topics (facet_topics facets)
    | None => facet_topics facets
    end in
  {| facet_fileTypes := fileTypes; facet_languages := languages;
     facet_topics := topics; facet_authors := authors |}.

Definition getFacets (files : list ExtractedFile) : SearchFacets :=
  fold_left facets_file files
    {| facet_fileTypes := ∅; facet_languages := ∅; facet_topics := ∅;
       facet_authors := ∅ |}.

Section EntryPoints.

Variable localeCompare : string -> string -> Z.

Definition semanticSearch (query : string) (files : list ExtractedFile)
    (maxResults : option Z) : list SearchResult :=
  let maxResults := default 20%Z maxResults in
  let results := fold_left (semantic_file query) files [] in
  slice0 (sortResults localeCompare results SortRelevance) maxResults.

Definition advancedSearch (criteria : AdvancedSearchCriteria) (files : list StoredFile)
  : list SearchResult :=
  let results := files in
  (* Filter by file type *)
  let results :=
    match fileTypes criteria with
    | Some fileTypes =>
        if 0 <? length fileTypes
        then List.filter (fun file => includes_string fileTypes (type (stored file))) results
        else results
    | None => results
    end in
  (* Filter by date range *)
  let results :=
    match dateRange criteria with
    | Some dateRange =>
        List.filter
          (fun file =>
             let fileDate := uploadDate file in
             (range_start dateRange <=? fileDate)%Z && (fileDate <=? range_end dateRange)%Z)
          results
    | None => results
    end in
  (* Filter by size range *)
  let results :=
    match sizeRange criteria with
    | Some sizeRange =>
        List.filter
          (fun file =>
             Qle_bool (range_min sizeRange) (file_size file)
             && Qle_bool (file_size file) (range_max sizeRange))
          results
    | None => results
    end in
  (* Apply text search if query provided *)
  match Str.present (criteria_query criteria) with
  | Some query =>
      search localeCompare query (List.map stored results)
        (default no_options (searchOptions criteria))
  | None =>
      (* Convert filtered files to search results *)
      List.map
        (fun file =>
           let extracted := extractedContent (stored file) in
           {| fileId := id (stored file); fileName := name (stored file);
              content :=
                default (Str.substring (text extracted) 0 200)
                  (Str.present (summary extracted));
              relevanceScore := Num 1; matchType := MatchText;
              context :=
                default "No summary available" (Str.present (summary extracted)) |})
        results
  end.

End EntryPoints.

(** ** Predicates used in the properties of the entry points *)

(** The file passes the filters that [criteria] holds: its type is one of
    a non-empty list of types, its upload date and its size lie in the
    ranges, bounds included. *)
Definition meets_criteria (criteria : AdvancedSearchCriteria) (file : StoredFile) : bool :=
  match fileTypes criteria with
  | Some (t :: ts) => includes_string (t :: ts) (type (stored file))
  | _ => true
  end
  && match dateRange criteria with
     | Some range =>
         (range_start range <=? uploadDate file)%Z && (uploadDate file <=? range_end range)%Z
     | None => true
     end
  && match sizeRange criteria with
     | Some range =>
         Qle_bool (range_min range) (file_size file) && Qle_bool (file_size file) (range_max range)
     | None => true
     end.

(** The number of times that [key] is in [keys]. *)
Definition occurrences (key : string) (keys : list string) : nat :=
  length (List.filter (String.eqb key) keys).

(** The sum of the counts of a facet. *)
Definition facet_total (facet : gmap string nat) : nat :=
  map_fold (fun _ count total => count + total) 0 facet.

(** The language under which [getFacets] counts a file. *)
Definition facet_language (file : ExtractedFile) : string :=
  default "unknown" (Str.present (language (metadata (extractedContent file)))).

(** The offset of a match in the context that [extractContext] cuts
    around it: the part of the window before the match, after the
    ellipsis if there is one. *)
Definition match_offset (position : nat) : nat :=
  if 75 <? position then 3 + 75 else position.

(** The set of the normalized terms of a string. *)
Definition term_set (s : string) : gset string := list_to_set (preprocessQuery s).

(** Sample stored files and criteria. *)
Definition stored_files : list StoredFile :=
  [{| stored := full_file; file_size := 2048; uploadDate := 1700000000000 |};
   {| stored := titled_file; file_size := 100; uploadDate := 1600000000000 |};
   {| stored := table_file; file_size := 512; uploadDate := 1710000000000 |}].

(** Files of type pdf uploaded in a range of dates, with an optional
    query. *)
Definition recent_pdf (query : option string) : AdvancedSearchCriteria :=
  {| criteria_query := query; fileTypes := Some ["pdf"];
     dateRange := Some {| range_start := 1650000000000; range_end := 1750000000000 |};
     sizeRange := None; authors := None; languages := None; criteria_topics := None;
     searchOptions := None |}.

(** The keys that a file adds to the facets of authors and of topics. *)
Definition author_keys (file : ExtractedFile) : list string :=
  option_list (Str.present (author (metadata (extractedContent file)))).

Definition topic_keys (file : ExtractedFile) : list string :=
  default [] (topics (extractedContent file)).

(** The entry of [key] in the count of [keys]: absent when [key] is not
    among them. *)
Definition counted (keys : list string) (key : string) : option nat :=
  if occurrences key keys =? 0 then None else Some (occurrences key keys).


(** The ranking of [search]: the candidates that pass the threshold, in
    the order asked for, before the cut at [maxResults]. *)
Definition ranking (localeCompare : string -> string -> Z) (query : string)
    (files : list ExtractedFile) (options : SearchOptions) : list SearchResult :=
  sortResults localeCompare
    (List.filter
       (fun result =>
          Number.geb (relevanceScore result) (Num (default 0.1%Q (threshold options))))
       (collect query files options))
    (default SortRelevance (sortBy options)).

(** The file shares a normalized term with the query, in its full text
    or in its summary. *)
Definition shares_term (query : string) (file : ExtractedFile) : bool :=
  negb (bool_decide (term_set query ∩ term_set (text (extractedContent file)) = ∅))
  || match summary (extractedContent file) with
     | Some summary => negb (bool_decide (term_set query ∩ term_set summary = ∅))
     | None => false
     end.

(** The results in [results] that carry the id [fileId']. *)
Definition results_of (fileId' : string) (results : list SearchResult)
  : list SearchResult :=
  List.filter (fun r => String.eqb (fileId r) fileId') results.

(** Lower-casing keeps the length of [s], so that an offset found in
    the lowered string is the offset of the same characters in [s].
    [searchInText] relies on it: it finds a term in the lowered text and
    cuts the context out of the text at that offset.  Every string of
    the model keeps its offsets; a string of the source does unless it
    holds U+0130, whose lower case is two units long. *)
Definition keeps_offsets (s : string) : bool :=
  String.length (Str.toLowerCase s) =? String.length s.


(** * Properties *)

(** ** Sanity checks of the string model and of the tokenizer *)

Example indexOf_clamped : Str.indexOf "abc" "" 5 = Some 3.
Proof. reflexivity. Qed.

Example indexOf_second : Str.indexOf "abcabc" "bc" 2 = Some 4.
Proof. reflexivity. Qed.

Example lower_latin1 : Str.toLowerCase "Hello_World 42" = "hello_world 42".
Proof. reflexivity. Qed.

Example split_edges : split_spaces " a  b " = [""; "a"; "b"; ""].
Proof. reflexivity. Qed.

Example preprocess_sample :
  preprocessQuery "The Q1 revenue-report, 2023!" = ["the"; "revenue"; "report"; "2023"].
Proof. reflexivity. Qed.

Example preprocess_underscore : preprocessQuery "net_income" = ["net_income"].
Proof. reflexivity. Qed.

(** ** Arrays *)

(** A loop that only pushes onto [results] yields the concatenation of
    what each round pushes, in the order of the rounds. *)
Lemma fold_left_push {A B : Type} (step : list B -> A -> list B) (f : A -> list B) :
  (forall results x, step results x = results ++ f x) ->
  forall l init, fold_left step l init = init ++ flat_map f l.
Proof.
  intros Hstep l. induction l as [|x l IH]; intros init; simpl.
  - now rewrite app_nil_r.
  - rewrite IH, Hstep, <- app_assoc. reflexivity.
Qed.

Lemma fold_left_push_nil {A B : Type} (step : list B -> A -> list B) (f : A -> list B) :
  (forall results x, step results x = results ++ f x) ->
  forall l, fold_left step l [] = flat_map f l.
Proof. intros Hstep l. now rewrite (fold_left_push step f Hstep). Qed.

Lemma indexed_snd {A : Type} (l : list A) : List.map snd (indexed l) = l.
Proof.
  unfold indexed. generalize 0. induction l as [|x l IH]; intros k; simpl.
  - reflexivity.
  - now rewrite IH.
Qed.

Lemma flat_map_nil {A B : Type} (f : A -> list B) (l : list A) :
  (forall x, In x l -> f x = []) -> flat_map f l = [].
Proof.
  induction l as [|x l IH]; intros H; simpl; [reflexivity|].
  rewrite (H x) by now left. apply IH. intros y Hy. apply H. now right.
Qed.

Lemma slice0_length_mono {A B : Type} (l1 : list A) (l2 : list B) (end_ : Z) :
  length l1 <= length l2 -> length (slice0 l1 end_) <= length (slice0 l2 end_).
Proof.
  intros H. unfold slice0. rewrite !length_take.
  destruct (end_ <? 0)%Z eqn:E; lia.
Qed.

Lemma slice0_nil {A : Type} (end_ : Z) : slice0 (@nil A) end_ = [].
Proof. unfold slice0. now rewrite take_nil. Qed.

(** ** Strings *)

Module StrFacts.

Lemma length_map f s : String.length (Str.map f s) = String.length s.
Proof. induction s; simpl; congruence. Qed.

Lemma length_toLowerCase s : String.length (Str.toLowerCase s) = String.length s.
Proof. apply length_map. Qed.

Lemma length_drop n s : String.length (Str.drop n s) = String.length s - n.
Proof.
  revert s. induction n as [|n IH]; intros [|c s]; simpl; auto.
Qed.

Lemma find_bounds pat s k i :
  Str.find pat s k = Some i -> k <= i /\ i + String.length pat <= k + String.length s.
Proof.
  revert k. induction s as [|c s IH]; intros k; simpl.
  - destruct pat; simpl; [|discriminate].
    intros [= <-]. simpl. lia.
  - destruct (Str.startsWith pat (String c s)) eqn:E.
    + intros [= <-]. split; [lia|].
      assert (String.length pat <= String.length (String c s)); [|simpl in *; lia].
      clear IH. revert E. generalize (String c s). clear.
      induction pat as [|a pat IH]; intros [|b t]; simpl; try lia; try discriminate.
      intros H. apply andb_prop in H as [_ H]. apply IH in H. lia.
    + intros H. apply IH in H. lia.
Qed.

(** An occurrence lies inside the string and not before the start of
    the search. *)
Lemma indexOf_bounds s pat from i :
  Str.indexOf s pat from = Some i ->
  Nat.min from (String.length s) <= i /\ i + String.length pat <= String.length s.
Proof.
  unfold Str.indexOf. intros H. apply find_bounds in H.
  rewrite length_drop in H. lia.
Qed.

Lemma indexOf_empty_text pat from :
  pat <> EmptyString -> Str.indexOf EmptyString pat from = None.
Proof.
  intros Hpat. unfold Str.indexOf.
  replace (Str.drop from "") with "" by now destruct from.
  destruct pat; [congruence|reflexivity].
Qed.

(** The empty string occurs in every string. *)
Lemma includes_empty s : Str.includes s EmptyString = true.
Proof. unfold Str.includes, Str.indexOf. simpl. now destruct s. Qed.

Lemma present_Some o s : Str.present o = Some s -> o = Some s /\ s <> EmptyString.
Proof.
  destruct o as [t|]; simpl; [|discriminate].
  destruct t; simpl; [discriminate|]. intros [= <-]. split; congruence.
Qed.

Lemma truthy_true s : Str.truthy s = true -> s <> EmptyString.
Proof. destruct s; simpl; congruence. Qed.

End StrFacts.

(** ** Numbers *)

Module NumberFacts.

Lemma qmin_le_l x y : (Number.qmin x y <= x)%Q.
Proof.
  unfold Number.qmin. destruct (Qle_bool x y) eqn:E; [apply Qle_refl|].
  destruct (Qlt_le_dec y x) as [H|H]; [now apply Qlt_le_weak|].
  apply Qle_bool_iff in H. congruence.
Qed.

Lemma qmin_le_r x y : (Number.qmin x y <= y)%Q.
Proof.
  unfold Number.qmin. destruct (Qle_bool x y) eqn:E; [now apply Qle_bool_iff|apply Qle_refl].
Qed.

Lemma qmin_glb x y z : (z <= x)%Q -> (z <= y)%Q -> (z <= Number.qmin x y)%Q.
Proof. unfold Number.qmin. now destruct (Qle_bool x y). Qed.

Lemma qmin_compat x x' y y' :
  (x == x')%Q -> (y == y')%Q -> (Number.qmin x y == Number.qmin x' y')%Q.
Proof.
  intros Hx Hy. apply Qle_antisym; apply qmin_glb.
  - rewrite <- Hx. apply qmin_le_l.
  - rewrite <- Hy. apply qmin_le_r.
  - rewrite Hx. apply qmin_le_l.
  - rewrite Hy. apply qmin_le_r.
Qed.

Lemma min_Num x y : Number.min (Num x) (Num y) = Num (Number.qmin x y).
Proof. reflexivity. Qed.

(** A position inside a text, relative to the length of the text, is
    at most one. *)
Lemma ratio_le_1 (p len : nat) :
  p <= len -> 0 < len ->
  (0 <= inject_Z (Z.of_nat p) / inject_Z (Z.of_nat len) <= 1)%Q.
Proof.
  intros Hp Hlen.
  assert (Hl : (0 < inject_Z (Z.of_nat len))%Q).
  { change 0%Q with (inject_Z 0). rewrite <- Zlt_Qlt. lia. }
  assert (Hp0 : (0 <= inject_Z (Z.of_nat p))%Q).
  { change 0%Q with (inject_Z 0). rewrite <- Zle_Qle. lia. }
  split.
  - apply Qle_shift_div_l; [assumption|]. now rewrite Qmult_0_l.
  - apply Qle_shift_div_r; [assumption|]. rewrite Qmult_1_l.
    rewrite <- Zle_Qle. lia.
Qed.

Lemma of_nat_nonneg (n : nat) : (0 <= inject_Z (Z.of_nat n))%Q.
Proof. change 0%Q with (inject_Z 0). rewrite <- Zle_Qle. lia. Qed.

Lemma div_of_nat (p len : nat) :
  0 < len ->
  Number.div (Number.of_nat p) (Number.of_nat len)
  = Num (inject_Z (Z.of_nat p) / inject_Z (Z.of_nat len)).
Proof.
  intros Hlen. unfold Number.div, Number.of_nat.
  destruct (Qeq_bool (inject_Z (Z.of_nat len)) 0) eqn:E; [|reflexivity].
  apply Qeq_bool_eq in E. unfold Qeq in E. simpl in E. lia.
Qed.

Lemma geb_false_ltb (x t : Q) :
  Number.geb (Num x) (Num t) = negb (Number.ltb (Num x) (Num t)).
Proof. unfold Number.ltb. simpl. now rewrite negb_involutive. Qed.

Lemma geb_mono (x t1 t2 : Q) :
  (t1 <= t2)%Q -> Number.geb (Num x) (Num t2) = true -> Number.geb (Num x) (Num t1) = true.
Proof.
  simpl. rewrite !Qle_bool_iff. intros H1 H2. now apply Qle_trans with t2.
Qed.

End NumberFacts.

(** ** Tokenizer *)

Module TokenizerFacts.

Lemma forallb_map p f s : Str.forallb p (Str.map f s) = Str.forallb (fun c => p (f c)) s.
Proof. induction s; simpl; congruence. Qed.

Lemma forallb_all p s : (forall c, p c = true) -> Str.forallb p s = true.
Proof. intros H. induction s; simpl; [reflexivity|]. now rewrite H. Qed.


(** After lowering and blanking, a code unit is white space or a
    character of a term. *)
Lemma normalized_unit c :
  let c' := blank_nonword (CodeUnit.toLowerCase c) in
  CodeUnit.is_space c' || is_term_char c' = true.
Proof. destruct c as [[] [] [] [] [] [] [] []]; reflexivity. Qed.


Lemma term_char_lowered c : is_term_char c = true -> CodeUnit.toLowerCase c = c.
Proof. destruct c as [[] [] [] [] [] [] [] []]; vm_compute; congruence. Qed.

(** The pieces of a split hold what is not white space. *)
Lemma split_spaces_pieces (p : ascii -> bool) s :
  Str.forallb (fun c => CodeUnit.is_space c || p c) s = true ->
  Forall (fun piece => Str.forallb p piece = true) (split_spaces s).
Proof.
  induction s as [|c s IH]; simpl.
  - intros _. now constructor.
  - intros H. apply andb_prop in H as [Hc Hs]. specialize (IH Hs).
    destruct (split_spaces s) as [|piece rest]; [constructor|].
    inversion IH as [|? ? Hpiece Hrest]; subst.
    destruct (CodeUnit.is_space c) eqn:E.
    + destruct (starts_with_space s); repeat constructor; assumption.
    + constructor; [|assumption]. simpl in *. now rewrite Hc, Hpiece.
Qed.

Lemma terms_chars query :
  Forall (fun term => Str.forallb is_term_char term = true /\ 2 < String.length term)
    (preprocessQuery query).
Proof.
  unfold preprocessQuery. apply List.Forall_forall. intros term Hin.
  apply filter_In in Hin as [Hin Hlen]. split.
  - pose proof (split_spaces_pieces is_term_char
                  (Str.map blank_nonword (Str.toLowerCase query))) as H.
    rewrite List.Forall_forall in H. apply H; [|assumption].
    unfold Str.toLowerCase. rewrite !forallb_map.
    apply forallb_all. intros c. apply normalized_unit.
  - now apply Nat.ltb_lt in Hlen.
Qed.

(** A term is lower case already, and as a pattern it is literal. *)
Lemma terms_lowered s : Str.forallb is_term_char s = true -> Str.toLowerCase s = s.
Proof.
  induction s as [|c s IH]; simpl; [reflexivity|].
  intros H. apply andb_prop in H as [Hc Hs].
  unfold Str.toLowerCase in *. simpl. now rewrite term_char_lowered, IH.
Qed.


End TokenizerFacts.

(** ** Relevance scorer *)

Module ScorerFacts.

Lemma string_length_0 s : String.length s = 0 -> s = EmptyString.
Proof. destruct s; simpl; [reflexivity|discriminate]. Qed.

(** Where the term occurs in a text, the text is not empty unless the
    term is. *)
Lemma occurrence_length term fullText p :
  term <> EmptyString \/ fullText <> EmptyString ->
  Str.indexOf (Str.toLowerCase fullText) (Str.toLowerCase term) 0 = Some p ->
  p <= String.length fullText /\ 0 < String.length fullText.
Proof.
  intros Hne H. apply StrFacts.indexOf_bounds in H.
  rewrite !StrFacts.length_toLowerCase in H.
  destruct (String.length fullText) eqn:El; [|lia].
  exfalso. destruct Hne as [Hne|Hne]; apply Hne; apply string_length_0; lia.
Qed.

Lemma frequency_bounds (n : nat) :
  (0 <= Number.qmin 0.2 (inject_Z (Z.of_nat n) * 0.05) <= 0.2)%Q.
Proof.
  split; [|apply NumberFacts.qmin_le_l].
  apply NumberFacts.qmin_glb; [lra|].
  pose proof (NumberFacts.of_nat_nonneg n). nra.
Qed.

(** The score is a number, the one of the closed form, and lies between
    one half and one, but for the empty term in the empty text. *)
Lemma score_value term fullText context :
  term <> EmptyString \/ fullText <> EmptyString ->
  exists q,
    calculateRelevanceScore term fullText context = Num q
    /\ (q == relevance_formula term fullText context)%Q
    /\ (0.5 <= q <= 1)%Q.
Proof.
  intros Hne. unfold calculateRelevanceScore, relevance_formula.
  set (inc := Str.includes _ _).
  set (n := match_count _ _).
  pose proof (frequency_bounds n) as Hf.
  destruct (Str.indexOf (Str.toLowerCase fullText) (Str.toLowerCase term) 0)
    as [p|] eqn:Epos.
  - destruct (occurrence_length _ _ _ Hne Epos) as [Hp Hlen].
    rewrite (NumberFacts.div_of_nat p _ Hlen).
    pose proof (NumberFacts.ratio_le_1 p _ Hp Hlen) as Hr.
    set (r := (inject_Z (Z.of_nat p) / inject_Z (Z.of_nat (String.length fullText)))%Q) in *.
    destruct inc; cbn [Number.add Number.mul Number.sub Number.min Number.of_nat];
      (eexists; split; [reflexivity|]); split.
    + apply NumberFacts.qmin_compat; [reflexivity|]. reflexivity.
    + split; [apply NumberFacts.qmin_glb; nra|apply NumberFacts.qmin_le_l].
    + apply NumberFacts.qmin_compat; [reflexivity|]. ring.
    + split; [apply NumberFacts.qmin_glb; nra|apply NumberFacts.qmin_le_l].
  - destruct inc; cbn [Number.add Number.mul Number.sub Number.min Number.of_nat];
      (eexists; split; [reflexivity|]); split.
    + apply NumberFacts.qmin_compat; [reflexivity|]. ring.
    + split; [apply NumberFacts.qmin_glb; lra|apply NumberFacts.qmin_le_l].
    + apply NumberFacts.qmin_compat; [reflexivity|]. ring.
    + split; [apply NumberFacts.qmin_glb; lra|apply NumberFacts.qmin_le_l].
Qed.

(** Scoring against a text that is not empty never yields [NaN]. *)
Lemma score_not_nan term fullText context :
  fullText <> EmptyString ->
  Number.is_nan (calculateRelevanceScore term fullText context) = false.
Proof.
  intros H. destruct (score_value term fullText context) as (q & -> & _); auto.
Qed.

(** The global search of a pattern stops by itself: any fuel above the
    bound gives the same count. *)
Lemma count_matches_fuel s pat :
  forall fuel fuel' lastIndex,
    String.length s + 2 - lastIndex <= fuel ->
    String.length s + 2 - lastIndex <= fuel' ->
    count_matches fuel s pat lastIndex = count_matches fuel' s pat lastIndex.
Proof.
  induction fuel as [|fuel IH]; intros fuel' lastIndex H H'.
  - destruct fuel' as [|fuel']; [reflexivity|]. simpl.
    destruct (Nat.ltb_spec (String.length s) lastIndex); [reflexivity|lia].
  - destruct fuel' as [|fuel']; simpl;
      destruct (Nat.ltb_spec (String.length s) lastIndex); try reflexivity; try lia.
    destruct (Str.indexOf s pat lastIndex) as [i|] eqn:E; [|reflexivity].
    apply StrFacts.indexOf_bounds in E. f_equal. apply IH; lia.
Qed.

End ScorerFacts.

(** The scorer is private, and [searchInText] calls it with terms of
    the tokenizer only.  Were it given the empty term and the empty
    text, the first occurrence would be at offset 0 of a text of length
    0 and the quotient, hence the score, would be [NaN]. *)
Lemma calculateRelevanceScore_empty_term_empty_text :
  calculateRelevanceScore "" "" "" = NaN.
Proof. reflexivity. Qed.



(** ** Text matcher *)

Module TextFacts.

Lemma deduplicate_from_subset seen results r :
  In r (deduplicate_from seen results) -> In r results.
Proof.
  revert seen. induction results as [|x results IH]; intros seen; simpl; [tauto|].
  destruct (bool_decide _).
  - intros H. right. eapply IH, H.
  - intros [H|H]; [now left|]. right. eapply IH, H.
Qed.

Lemma deduplicateResults_subset results r :
  In r (deduplicateResults results) -> In r results.
Proof. apply deduplicate_from_subset. Qed.

(** Candidates of one file with one content fragment collapse onto the
    first of them. *)
Lemma deduplicate_same_key r r' :
  deduplicate_key r' = deduplicate_key r -> deduplicateResults [r; r'] = [r].
Proof.
  intros H. unfold deduplicateResults. cbn [deduplicate_from].
  rewrite bool_decide_eq_false_2 by set_solver.
  rewrite H. rewrite bool_decide_eq_true_2 by set_solver. reflexivity.
Qed.

(** The terms of a query are scanned one after the other. *)
Lemma searchInText_terms query text fileId fileName matchType :
  searchInText query text fileId fileName matchType
  = deduplicateResults
      (flat_map
         (fun term =>
            scan_term (S (String.length text)) text (Str.toLowerCase text)
              term (Str.toLowerCase term) fileId fileName matchType 0)
         (preprocessQuery query)).
Proof.
  unfold searchInText. f_equal.
  now rewrite (fold_left_push _ _ (fun _ _ => eq_refl)).
Qed.

(** The scan of a term that is not empty stops by itself: the candidates
    do not depend on the fuel, once it exceeds the length of the text. *)
Lemma scan_term_fuel text textLower term termLower fileId fileName matchType :
  termLower <> EmptyString ->
  forall fuel fuel' index,
    S (String.length textLower) - index <= fuel ->
    S (String.length textLower) - index <= fuel' ->
    scan_term fuel text textLower term termLower fileId fileName matchType index
    = scan_term fuel' text textLower term termLower fileId fileName matchType index.
Proof.
  intros Hne.
  assert (Hlen : 0 < String.length termLower).
  { destruct termLower; simpl; [congruence|lia]. }
  assert (Hout : forall index, String.length textLower < index ->
                               Str.indexOf textLower termLower index = None).
  { intros index Hi. destruct (Str.indexOf textLower termLower index) eqn:E; [|reflexivity].
    apply StrFacts.indexOf_bounds in E. lia. }
  induction fuel as [|fuel IH]; intros fuel' index H H'.
  - destruct fuel' as [|fuel']; [reflexivity|]. simpl. rewrite Hout by lia. reflexivity.
  - destruct fuel' as [|fuel']; simpl.
    + rewrite Hout by lia. reflexivity.
    + destruct (Str.indexOf textLower termLower index) as [i|] eqn:E; [|reflexivity].
      apply StrFacts.indexOf_bounds in E. f_equal. apply IH; lia.
Qed.

(** So the fuel that [searchInText] gives to the scan of a term of the
    query is enough. *)
Lemma searchInText_fuel query text fileId fileName matchType term fuel :
  In term (preprocessQuery query) ->
  S (String.length text) <= fuel ->
  scan_term fuel text (Str.toLowerCase text) term (Str.toLowerCase term)
    fileId fileName matchType 0
  = scan_term (S (String.length text)) text (Str.toLowerCase text) term
      (Str.toLowerCase term) fileId fileName matchType 0.
Proof.
  intros Hin Hfuel.
  pose proof (TokenizerFacts.terms_chars query) as Hterms.
  rewrite List.Forall_forall in Hterms. destruct (Hterms term Hin) as [_ Hlen].
  apply scan_term_fuel; rewrite ?StrFacts.length_toLowerCase; try lia.
  intros E. apply (f_equal String.length) in E.
  rewrite StrFacts.length_toLowerCase in E. simpl in E. lia.
Qed.

Lemma scan_term_scores fuel text textLower term termLower fileId fileName matchType index r :
  In r (scan_term fuel text textLower term termLower fileId fileName matchType index) ->
  exists context, relevanceScore r = calculateRelevanceScore term text context.
Proof.
  revert index. induction fuel as [|fuel IH]; intros index; simpl; [tauto|].
  destruct (Str.indexOf textLower termLower index) as [i|]; [|simpl; tauto].
  intros [<-|H]; [eexists; reflexivity|]. eapply IH, H.
Qed.

(** The candidates of a text that is not empty carry numbers. *)
Lemma searchInText_not_nan query text fileId fileName matchType r :
  text <> EmptyString ->
  In r (searchInText query text fileId fileName matchType) ->
  Number.is_nan (relevanceScore r) = false.
Proof.
  intros Hne. rewrite searchInText_terms. intros H.
  apply deduplicateResults_subset, in_flat_map in H as (term & _ & H).
  apply scan_term_scores in H as (context & ->).
  now apply ScorerFacts.score_not_nan.
Qed.

(** The empty query has no term, and the text matcher finds nothing. *)
Lemma searchInText_empty_query text fileId fileName matchType :
  searchInText "" text fileId fileName matchType = [].
Proof. reflexivity. Qed.

(** A text that holds none of the terms yields no candidate. *)
Lemma searchInText_silent query text fileId fileName matchType :
  Forall (fun term => Str.includes (Str.toLowerCase text) (Str.toLowerCase term) = false)
    (preprocessQuery query) ->
  searchInText query text fileId fileName matchType = [].
Proof.
  intros H. rewrite searchInText_terms.
  rewrite flat_map_nil; [reflexivity|].
  intros term Hin. rewrite List.Forall_forall in H. specialize (H term Hin).
  unfold Str.includes in H. simpl.
  destruct (Str.indexOf (Str.toLowerCase text) (Str.toLowerCase term) 0);
    [discriminate|reflexivity].
Qed.

End TextFacts.

(** ** The loop over the files *)

Module CollectFacts.

(** One round of the loop pushes the candidates of the file, matcher
    after matcher. *)
Lemma search_file_push query includeText includeOCR includeMetadata results file :
  search_file query includeText includeOCR includeMetadata results file
  = results
    ++ text_candidates query includeText file
    ++ ocr_candidates query includeOCR file
    ++ metadata_candidates query includeMetadata file
    ++ table_candidates query file
    ++ summary_candidates query file
    ++ keyword_candidates query file.
Proof.
  unfold search_file, text_candidates, ocr_candidates, metadata_candidates,
    table_candidates, summary_candidates, keyword_candidates, push.
  rewrite (fold_left_push
             (fun results table => results ++ searchInTable query table (id file) (name file))
             _ (fun _ _ => eq_refl)).
  assert (Hocr : forall init,
             fold_left
               (fun results image =>
                  match Str.present (ocrText image) with
                  | Some ocrText =>
                      results ++ searchInText query ocrText (id file) (name file) MatchOcr
                  | None => results
                  end) (images (extractedContent file)) init
             = init ++ flat_map
                 (fun image =>
                    match Str.present (ocrText image) with
                    | Some ocrText => searchInText query ocrText (id file) (name file) MatchOcr
                    | None => []
                    end) (images (extractedContent file))).
  { intros init. apply fold_left_push. intros acc image.
    destruct (Str.present (ocrText image)); [reflexivity|now rewrite app_nil_r]. }
  rewrite Hocr.
  destruct (includeText && Str.truthy (text (extractedContent file)));
    destruct includeOCR; destruct includeMetadata;
    destruct (Str.present (summary (extractedContent file)));
    destruct (keywords (extractedContent file));
    cbn [app]; rewrite ?app_nil_r, <- ?app_assoc; reflexivity.
Qed.

Lemma collect_flat_map query files options :
  collect query files options = flat_map (candidates_in_call_order query options) files.
Proof.
  unfold collect.
  rewrite (fold_left_push _ (candidates_in_call_order query options)); [reflexivity|].
  intros results file. apply search_file_push.
Qed.

End CollectFacts.

(** ** Matchers on the raw query *)

Module RawFacts.

Lemma indexed_flat_map_map {A B C : Type}
    (F : nat * A -> list B) (g : B -> C) (h : A -> list C) (l : list A) :
  (forall p, List.map g (F p) = h (snd p)) ->
  List.map g (flat_map F (indexed l)) = flat_map h l.
Proof.
  intros H. unfold indexed. generalize 0.
  induction l as [|x l IH]; intros k; simpl; [reflexivity|].
  rewrite List.map_app, IH, H. reflexivity.
Qed.

Lemma flat_map_singleton {A : Type} (l : list A) : flat_map (fun x => [x]) l = l.
Proof. induction l; simpl; congruence. Qed.

Lemma flat_map_id {A : Type} (l : list (list A)) : flat_map (fun x => x) l = concat l.
Proof. induction l; simpl; congruence. Qed.

(** The table matcher yields the matching headers, then the matching
    cells row by row, each with its position counted from one. *)
Lemma searchInTable_cells query table fileId fileName :
  searchInTable query table fileId fileName
  = flat_map
      (fun header =>
         if Str.includes (Str.toLowerCase header) (Str.toLowerCase query)
         then [{| fileId := fileId; fileName := fileName; content := header;
                  relevanceScore := Num 0.7; matchType := MatchText;
                  context := "Table header: " +:+ header |}]
         else [])
      (headers table)
    ++ flat_map
         (fun row : nat * list string =>
            flat_map
              (fun cell : nat * string =>
                 if Str.includes (Str.toLowerCase (snd cell)) (Str.toLowerCase query)
                 then [cell_candidate fileId fileName (snd cell) (fst row + 1) (fst cell + 1)]
                 else [])
              (indexed (snd row)))
         (indexed (rows table)).
Proof.
  unfold searchInTable, push.
  rewrite (fold_left_push _
             (fun row : nat * list string =>
                flat_map
                  (fun cell : nat * string =>
                     if Str.includes (Str.toLowerCase (snd cell)) (Str.toLowerCase query)
                     then [cell_candidate fileId fileName (snd cell) (fst row + 1) (fst cell + 1)]
                     else [])
                  (indexed (snd row)))).
  - f_equal. apply (fold_left_push_nil _ _). intros results header.
    destruct (Str.includes _ _); [reflexivity|now rewrite app_nil_r].
  - intros results [rowIndex row]. apply (fold_left_push _ _).
    intros acc [colIndex cell]. simpl.
    destruct (Str.includes _ _); [reflexivity|now rewrite app_nil_r].
Qed.

Lemma searchInKeywords_each query keywords fileId fileName :
  searchInKeywords query keywords fileId fileName
  = flat_map
      (fun keyword =>
         if Str.includes (Str.toLowerCase keyword) (Str.toLowerCase query)
         then [{| fileId := fileId; fileName := fileName; content := keyword;
                  relevanceScore := Num 0.8; matchType := MatchText;
                  context := "Keyword: " +:+ keyword |}]
         else [])
      keywords.
Proof.
  unfold searchInKeywords, push. apply (fold_left_push_nil _ _). intros results keyword.
  destruct (Str.includes _ _); [reflexivity|now rewrite app_nil_r].
Qed.

(** Every header and every cell holds the empty query. *)
Lemma searchInTable_empty_query table fileId fileName :
  List.map content (searchInTable "" table fileId fileName)
  = headers table ++ concat (rows table).
Proof.
  rewrite searchInTable_cells, List.map_app. f_equal.
  - induction (headers table) as [|header l IH]; simpl; [reflexivity|].
    rewrite StrFacts.includes_empty. simpl. now rewrite IH.
  - rewrite <- flat_map_id. apply indexed_flat_map_map. intros [rowIndex row]. simpl.
    rewrite <- (flat_map_singleton row) at 2.
    apply indexed_flat_map_map. intros [colIndex cell]. simpl.
    now rewrite StrFacts.includes_empty.
Qed.

Lemma searchInKeywords_empty_query keywords fileId fileName :
  List.map content (searchInKeywords "" keywords fileId fileName) = keywords.
Proof.
  rewrite searchInKeywords_each.
  induction keywords as [|keyword l IH]; simpl; [reflexivity|].
  rewrite StrFacts.includes_empty. simpl. now rewrite IH.
Qed.

Lemma searchInMetadata_empty_query file :
  List.map content (searchInMetadata "" file)
  = option_list (Str.present (title (metadata (extractedContent file))))
    ++ option_list (Str.present (author (metadata (extractedContent file)))).
Proof.
  unfold searchInMetadata, push. simpl Str.toLowerCase.
  destruct (Str.present (title _)) as [t|]; destruct (Str.present (author _)) as [a|];
    rewrite ?StrFacts.includes_empty; reflexivity.
Qed.

(** The candidates of the matchers on the raw query carry fixed scores. *)
Lemma searchInMetadata_not_nan query file r :
  In r (searchInMetadata query file) -> Number.is_nan (relevanceScore r) = false.
Proof.
  unfold searchInMetadata, push.
  destruct (Str.present (title _)) as [t|]; destruct (Str.present (author _)) as [a|];
    repeat destruct (Str.includes _ _); simpl; intuition (subst; reflexivity).
Qed.

Lemma searchInTable_not_nan query table fileId fileName r :
  In r (searchInTable query table fileId fileName) ->
  Number.is_nan (relevanceScore r) = false.
Proof.
  rewrite searchInTable_cells. intros H. apply in_app_or in H as [H|H].
  - apply in_flat_map in H as (header & _ & H).
    destruct (Str.includes _ _); simpl in H; intuition (subst; reflexivity).
  - apply in_flat_map in H as (row & _ & H). apply in_flat_map in H as (cell & _ & H).
    destruct (Str.includes _ _); simpl in H; intuition (subst; reflexivity).
Qed.

Lemma searchInKeywords_not_nan query keywords fileId fileName r :
  In r (searchInKeywords query keywords fileId fileName) ->
  Number.is_nan (relevanceScore r) = false.
Proof.
  rewrite searchInKeywords_each. intros H. apply in_flat_map in H as (keyword & _ & H).
  destruct (Str.includes _ _); simpl in H; intuition (subst; reflexivity).
Qed.

End RawFacts.

(** ** Sorting *)

Module SortFacts.

Section Insertion.
Context {A : Type} (compare : A -> A -> number).
Context (P : A -> Prop) (R : A -> A -> Prop).
Hypothesis before : forall x y, P x -> P y -> Number.nonpositive (compare x y) = true -> R x y.
Hypothesis after : forall x y, P x -> P y -> Number.nonpositive (compare x y) = false -> R y x.

Lemma insert_perm x l : Permutation (x :: l) (insert compare x l).
Proof.
  induction l as [|y l IH]; simpl; [reflexivity|].
  destruct (Number.nonpositive (compare x y)); [reflexivity|].
  rewrite perm_swap. now apply perm_skip.
Qed.

Lemma sort_perm l : Permutation l (sort compare l).
Proof.
  induction l as [|x l IH]; simpl; [reflexivity|].
  rewrite <- insert_perm. now apply perm_skip.
Qed.

Lemma insert_sorted x l :
  P x -> Forall P l -> Sorted R l -> Sorted R (insert compare x l).
Proof.
  intros Hx. induction l as [|y l IH]; intros HP Hs; simpl.
  - repeat constructor.
  - inversion HP as [|? ? Hy HPl]; subst. inversion Hs as [|? ? Hsl Hhd]; subst.
    destruct (Number.nonpositive (compare x y)) eqn:E.
    + constructor; [assumption|]. constructor. now apply before.
    + constructor; [now apply IH|].
      pose proof (after x y Hx Hy E) as Hyx.
      destruct l as [|z l]; simpl; [now constructor|].
      destruct (Number.nonpositive (compare x z)); constructor; [assumption|].
      now inversion Hhd.
Qed.

Lemma sort_sorted l : Forall P l -> Sorted R (sort compare l).
Proof.
  induction l as [|x l IH]; intros HP; simpl; [constructor|].
  inversion HP as [|? ? Hx HPl]; subst.
  apply insert_sorted; [assumption| |now apply IH].
  eapply Permutation_Forall; [apply sort_perm|assumption].
Qed.

End Insertion.

Lemma sortResults_perm localeCompare results sortBy :
  Permutation results (sortResults localeCompare results sortBy).
Proof. destruct sortBy; simpl; try reflexivity; apply sort_perm. Qed.

Lemma sortResults_length localeCompare results sortBy :
  length (sortResults localeCompare results sortBy) = length results.
Proof. symmetry. apply Permutation_length, sortResults_perm. Qed.

Lemma compare_scores_before a b :
  scored a -> scored b ->
  Number.nonpositive (Number.sub (relevanceScore b) (relevanceScore a)) = true ->
  score_ge a b.
Proof.
  unfold scored, score_ge. destruct (relevanceScore a), (relevanceScore b); simpl;
    try discriminate. intros _ _. rewrite !Qle_bool_iff. lra.
Qed.

Lemma compare_scores_after a b :
  scored a -> scored b ->
  Number.nonpositive (Number.sub (relevanceScore b) (relevanceScore a)) = false ->
  score_ge b a.
Proof.
  unfold scored, score_ge. destruct (relevanceScore a) as [|x], (relevanceScore b) as [|y];
    simpl; try discriminate. intros _ _ H. rewrite Qle_bool_iff.
  destruct (Qlt_le_dec x y) as [Hlt|Hle]; [lra|].
  assert (Qle_bool (y - x) 0 = true) by (apply Qle_bool_iff; lra). congruence.
Qed.

Lemma compare_names_sign (z : Z) : Number.nonpositive (Number.of_Z z) = true <-> (z <= 0)%Z.
Proof.
  unfold Number.of_Z, Number.nonpositive. rewrite Qle_bool_iff.
  change 0%Q with (inject_Z 0). now rewrite <- Zle_Qle.
Qed.

Lemma Z_of_comparison_opp c : Z_of_comparison (CompOpp c) = (- Z_of_comparison c)%Z.
Proof. now destruct c. Qed.

(** The sample collation is antisymmetric. *)
Lemma collate_letters_first_antisym a b :
  collate_letters_first b a = (- collate_letters_first a b)%Z.
Proof.
  unfold collate_letters_first.
  rewrite (String.compare_antisym (Str.toLowerCase a) (Str.toLowerCase b)).
  rewrite (String.compare_antisym b a).
  destruct (String.compare (Str.toLowerCase b) (Str.toLowerCase a));
    destruct (String.compare a b); reflexivity.
Qed.

Lemma collate_letters_first_consistent : sign_consistent collate_letters_first.
Proof. intros a b H. rewrite collate_letters_first_antisym. lia. Qed.

End SortFacts.

(** C4, as the specification states it, fails for the sort by name: the
    comparator is the collation of the host, not the order of the code
    units.  Under a collation that looks at the letters before their
    case, "a.txt" stays in front of "B.txt", although "B" comes first in
    the case-sensitive lexicographic order. *)
Lemma sort_by_name_follows_collation :
  sign_consistent collate_letters_first
  /\ sortResults collate_letters_first
       [named_result "a.txt" 0.9; named_result "B.txt" 0.9] SortName
     = [named_result "a.txt" 0.9; named_result "B.txt" 0.9]
  /\ ~ Sorted name_le_code_units
         (sortResults collate_letters_first
            [named_result "a.txt" 0.9; named_result "B.txt" 0.9] SortName).
Proof.
  split; [apply SortFacts.collate_letters_first_consistent|].
  split; [reflexivity|].
  intros H. inversion H as [|? ? _ Hhd]; subst. inversion Hhd as [|? ? Hle]; subst.
  vm_compute in Hle. discriminate.
Qed.

(** C4 (amended): for every candidate list whose scores are numbers,
    sorting with key relevance yields non-increasing scores; sorting with
    key name yields display names that are non-decreasing in the
    collation of the host (localeCompare), for every collation that is
    consistent in sign; any other key leaves the order unchanged.  In
    every case the result is a permutation of the list. *)
Theorem sortResults_ordered (localeCompare : string -> string -> Z)
    (results : list SearchResult) :
  (Forall scored results ->
   Sorted score_ge (sortResults localeCompare results SortRelevance))
  /\ (sign_consistent localeCompare ->
      Sorted (name_le localeCompare) (sortResults localeCompare results SortName))
  /\ (forall sortBy, sortBy <> SortRelevance -> sortBy <> SortName ->
      sortResults localeCompare results sortBy = results)
  /\ (forall sortBy, Permutation results (sortResults localeCompare results sortBy)).
Proof.
  repeat split.
  - intros H. simpl. apply (SortFacts.sort_sorted _ scored score_ge); [| |assumption].
    + intros x y. apply SortFacts.compare_scores_before.
    + intros x y. apply SortFacts.compare_scores_after.
  - intros Hlc. simpl.
    apply (SortFacts.sort_sorted _ (fun _ => True) (name_le localeCompare)).
    + intros x y _ _ H. now apply SortFacts.compare_names_sign in H.
    + intros x y _ _ H. apply Hlc. unfold name_le.
      destruct (Z_lt_le_dec 0 (localeCompare (fileName x) (fileName y))) as [Hlt|Hle];
        [assumption|].
      apply SortFacts.compare_names_sign in Hle. congruence.
    + apply List.Forall_forall. intros; exact I.
  - intros sortBy H1 H2. destruct sortBy; try reflexivity; congruence.
  - intros sortBy. apply SortFacts.sortResults_perm.
Qed.

Lemma sortResults_ordered_witness :
  Sorted score_ge
    (sortResults collate_letters_first
       [named_result "B.txt" 0.6; named_result "a.txt" 0.9; named_result "c.txt" 0.8]
       SortRelevance)
  /\ Sorted (name_le collate_letters_first)
       (sortResults collate_letters_first
          [named_result "B.txt" 0.6; named_result "a.txt" 0.9; named_result "c.txt" 0.8]
          SortName).
Proof.
  destruct (sortResults_ordered collate_letters_first
              [named_result "B.txt" 0.6; named_result "a.txt" 0.9; named_result "c.txt" 0.8])
    as (Hscore & Hname & _).
  split.
  - apply Hscore. repeat constructor.
  - apply Hname. apply SortFacts.collate_letters_first_consistent.
Defined.

(** ** The pipeline of [search] *)

Module SearchFacts.

Lemma map_flat_map_eq {A B C : Type} (f : A -> list B) (g : B -> C) (h : A -> list C) l :
  (forall x, List.map g (f x) = h x) -> List.map g (flat_map f l) = flat_map h l.
Proof.
  intros H. induction l as [|x l IH]; simpl; [reflexivity|].
  now rewrite List.map_app, H, IH.
Qed.

Lemma sortResults_nil localeCompare sortBy : sortResults localeCompare [] sortBy = [].
Proof. now destruct sortBy. Qed.

Lemma filter_length_le {A : Type} (f g : A -> bool) l :
  (forall x, In x l -> f x = true -> g x = true) ->
  length (List.filter f l) <= length (List.filter g l).
Proof.
  induction l as [|x l IH]; intros H; simpl; [lia|].
  assert (IH' : length (List.filter f l) <= length (List.filter g l)).
  { apply IH. intros y Hy. apply H. now right. }
  destruct (f x) eqn:E.
  - rewrite (H x (or_introl eq_refl) E). simpl. lia.
  - destruct (g x); simpl; lia.
Qed.

(** With the empty query the scans of the full text, of the OCR text and
    of the summary add nothing. *)
Lemma tokenized_matchers_empty_query options file :
  text_candidates "" (default true (includeText options)) file = []
  /\ ocr_candidates "" (default true (includeOCR options)) file = []
  /\ summary_candidates "" file = [].
Proof.
  unfold text_candidates, ocr_candidates, summary_candidates. repeat split.
  - now destruct (_ && _).
  - destruct (default true (includeOCR options)); [|reflexivity].
    apply flat_map_nil. intros image _. now destruct (Str.present (ocrText image)).
  - now destruct (Str.present _).
Qed.

Lemma candidates_empty_query options file :
  List.map content (candidates_in_call_order "" options file)
  = raw_fields (default true (includeMetadata options)) file.
Proof.
  unfold candidates_in_call_order.
  destruct (tokenized_matchers_empty_query options file) as (-> & -> & ->).
  cbn [app]. unfold raw_fields, metadata_candidates, table_candidates, keyword_candidates.
  rewrite !List.map_app. f_equal; [|f_equal].
  - destruct (default true (includeMetadata options)); [|reflexivity].
    apply RawFacts.searchInMetadata_empty_query.
  - apply map_flat_map_eq. intros table. apply RawFacts.searchInTable_empty_query.
  - destruct (keywords (extractedContent file)); [|reflexivity].
    apply RawFacts.searchInKeywords_empty_query.
Qed.

(** No candidate that [search] collects carries [NaN]: the text matcher
    is run on texts that are not empty only. *)
Lemma collect_scored query files options :
  Forall scored (collect query files options).
Proof.
  rewrite CollectFacts.collect_flat_map. apply List.Forall_forall. intros r H.
  apply in_flat_map in H as (file & _ & H). unfold candidates_in_call_order in H.
  repeat (apply in_app_or in H as [H|H]).
  - unfold text_candidates in H.
    destruct (default true (includeText options)); simpl in H; [|tauto].
    destruct (Str.truthy (text (extractedContent file))) eqn:E; [|simpl in H; tauto].
    eapply TextFacts.searchInText_not_nan; [|exact H]. now apply StrFacts.truthy_true.
  - unfold ocr_candidates in H.
    destruct (default true (includeOCR options)); [|simpl in H; tauto].
    apply in_flat_map in H as (image & _ & H).
    destruct (Str.present (ocrText image)) as [t|] eqn:E; [|simpl in H; tauto].
    apply StrFacts.present_Some in E as [_ E].
    eapply TextFacts.searchInText_not_nan; [|exact H]. assumption.
  - unfold metadata_candidates in H.
    destruct (default true (includeMetadata options)); [|simpl in H; tauto].
    eapply RawFacts.searchInMetadata_not_nan, H.
  - unfold table_candidates in H. apply in_flat_map in H as (table & _ & H).
    eapply RawFacts.searchInTable_not_nan, H.
  - unfold summary_candidates in H.
    destruct (Str.present (summary (extractedContent file))) as [t|] eqn:E;
      [|simpl in H; tauto].
    apply StrFacts.present_Some in E as [_ E].
    eapply TextFacts.searchInText_not_nan; [|exact H]. assumption.
  - unfold keyword_candidates in H.
    destruct (keywords (extractedContent file)); [|simpl in H; tauto].
    eapply RawFacts.searchInKeywords_not_nan, H.
Qed.

End SearchFacts.

(** C1, as the specification states it, fails: the empty string is a
    substring of every string, so with the empty query every header and
    every cell of a table is a candidate. *)
Lemma search_empty_query_finds_cells :
  List.map content (search collate_letters_first "" [table_file] no_options)
  = ["Name"; "Amount"; "Alice"; "100"; "Bob"; "200"]
  /\ search collate_letters_first "" [table_file] no_options <> [].
Proof. split; [reflexivity|]. vm_compute. discriminate. Qed.

(** C1 (amended): for every document collection and every options value,
    the empty query yields no candidate from the scans of the full text,
    of the OCR text and of the summary; the candidates that are
    collected are, in order, one per field compared with the raw query
    (non-empty title and author when includeMetadata is on, every table
    header and cell, every keyword); so search returns the empty
    sequence whenever the documents have no such field. *)
Theorem search_empty_query (localeCompare : string -> string -> Z)
    (files : list ExtractedFile) (options : SearchOptions) :
  (forall text fileId fileName matchType,
      searchInText "" text fileId fileName matchType = [])
  /\ List.map content (collect "" files options)
     = flat_map (raw_fields (default true (includeMetadata options))) files
  /\ (Forall (fun file => raw_fields (default true (includeMetadata options)) file = [])
        files ->
      search localeCompare "" files options = []).
Proof.
  assert (Hraw : List.map content (collect "" files options)
                 = flat_map (raw_fields (default true (includeMetadata options))) files).
  { rewrite CollectFacts.collect_flat_map. apply SearchFacts.map_flat_map_eq.
    intros file. apply SearchFacts.candidates_empty_query. }
  split; [intros; apply TextFacts.searchInText_empty_query|].
  split; [exact Hraw|].
  intros Hnone. unfold search.
  rewrite flat_map_nil in Hraw.
  - apply List.map_eq_nil in Hraw. rewrite Hraw. simpl.
    rewrite SearchFacts.sortResults_nil. apply slice0_nil.
  - intros file Hin. rewrite List.Forall_forall in Hnone. now apply Hnone.
Qed.

Lemma search_empty_query_witness :
  search collate_letters_first ""
    [text_file "f1" "notes.txt" "Some notes."; text_file "f2" "empty.txt" ""] no_options
  = [].
Proof.
  apply (search_empty_query collate_letters_first
           [text_file "f1" "notes.txt" "Some notes."; text_file "f2" "empty.txt" ""]
           no_options).
  repeat constructor.
Defined.

(** C3, as the specification states it, fails: the summary is scanned
    after the metadata and the tables, not before them.  For a file with
    a matching title and a matching summary the title comes first. *)
Lemma summary_is_scanned_after_metadata :
  List.map matchType (collect "revenue" [titled_file] no_options)
  = [MatchMetadata; MatchText]
  /\ List.map matchType (flat_map (candidates_in_listed_order "revenue" no_options) [titled_file])
     = [MatchText; MatchMetadata]
  /\ collect "revenue" [titled_file] no_options
     <> flat_map (candidates_in_listed_order "revenue" no_options) [titled_file].
Proof.
  split; [reflexivity|]. split; [reflexivity|].
  intros H. apply (f_equal (List.map matchType)) in H. vm_compute in H. discriminate.
Qed.

(** C3 (amended): for every document the matchers are called in the
    order text, OCR (once per image), metadata, tables (once per table),
    summary, keywords, each under its option and when its field is
    present, and the candidate list, which search then filters by the
    threshold, sorts and truncates, is the concatenation of their
    outputs in that order, document after document. *)
Theorem collect_in_call_order (localeCompare : string -> string -> Z) (query : string)
    (files : list ExtractedFile) (options : SearchOptions) :
  collect query files options
  = flat_map
      (fun file =>
         text_candidates query (default true (includeText options)) file
         ++ ocr_candidates query (default true (includeOCR options)) file
         ++ metadata_candidates query (default true (includeMetadata options)) file
         ++ table_candidates query file
         ++ summary_candidates query file
         ++ keyword_candidates query file)
      files
  /\ search localeCompare query files options
     = slice0
         (sortResults localeCompare
            (List.filter
               (fun result =>
                  Number.geb (relevanceScore result)
                    (Num (default 0.1%Q (threshold options))))
               (collect query files options))
            (default SortRelevance (sortBy options)))
         (default 50%Z (maxResults options)).
Proof. split; [apply CollectFacts.collect_flat_map|reflexivity]. Qed.

(** C10: the table matcher, the summary matcher and the keyword matcher
    are not gated by any option.  With includeText, includeOCR and
    includeMetadata all false, the candidates of every document are
    those of its tables, of its summary and of its keywords, and search
    returns such candidates. *)
Theorem ungated_matchers (localeCompare : string -> string -> Z) (query : string)
    (files : list ExtractedFile) (sortBy : option SortOption) (maxResults : option Z)
    (threshold : option Q) :
  collect query files (all_scans_off sortBy maxResults threshold)
  = flat_map
      (fun file =>
         table_candidates query file ++ summary_candidates query file
         ++ keyword_candidates query file)
      files
  /\ List.map context
       (search localeCompare "budget" [full_file] (all_scans_off None None None))
     = ["A budget summary"; "Keyword: budget"; "Table header: Budget";
        "Table cell (Row 1, Col 2): budget line"].
Proof.
  split; [|reflexivity].
  rewrite CollectFacts.collect_flat_map. reflexivity.
Qed.

(** C7: for a document with the one table of headers Name, Amount and
    rows (Alice, 100), (Bob, 200), and no other field that mentions the
    query, searching for "Bob" with the default options returns exactly
    one candidate: the cell, with match type text, score 0.6 and context
    "Table cell (Row 2, Col 1): Bob". *)
Theorem search_table_cell (localeCompare : string -> string -> Z) (file : ExtractedFile)
    (table_id : string) :
  tables (extractedContent file) = [people_table table_id] ->
  silent_outside_tables "bob" file ->
  search localeCompare "Bob" [file] no_options
  = [{| fileId := id file; fileName := name file; content := "Bob";
        relevanceScore := Num 0.6; matchType := MatchText;
        context := "Table cell (Row 2, Col 1): Bob" |}].
Proof.
  intros Htables (Htext & Himages & Htitle & Hauthor & Hsummary & Hkeywords).
  assert (Hscan : forall text fileId fileName matchType,
             Str.includes (Str.toLowerCase text) "bob" = false ->
             searchInText "Bob" text fileId fileName matchType = []).
  { intros text fileId fileName matchType H. apply TextFacts.searchInText_silent.
    repeat constructor. exact H. }
  unfold search. rewrite CollectFacts.collect_flat_map.
  cbn [flat_map]. rewrite app_nil_r. unfold candidates_in_call_order.
  assert (Ht : text_candidates "Bob" (default true (includeText no_options)) file = []).
  { unfold text_candidates. destruct (_ && _); [|reflexivity]. now apply Hscan. }
  assert (Ho : ocr_candidates "Bob" (default true (includeOCR no_options)) file = []).
  { unfold ocr_candidates. simpl default. cbv iota. apply flat_map_nil. intros image Hin.
    rewrite List.Forall_forall in Himages. specialize (Himages image Hin).
    destruct (Str.present (ocrText image)) as [t|] eqn:E; [|reflexivity].
    apply StrFacts.present_Some in E as [E _]. rewrite E in Himages. now apply Hscan. }
  assert (Hm : metadata_candidates "Bob" (default true (includeMetadata no_options)) file = []).
  { unfold metadata_candidates, searchInMetadata, push. simpl default. cbv iota.
    change (Str.toLowerCase "Bob") with "bob".
    destruct (Str.present (title _)) as [t|] eqn:Et.
    - apply StrFacts.present_Some in Et as [Et _]. rewrite Et in Htitle. rewrite Htitle.
      destruct (Str.present (author _)) as [a|] eqn:Ea; [|reflexivity].
      apply StrFacts.present_Some in Ea as [Ea _]. rewrite Ea in Hauthor.
      now rewrite Hauthor.
    - destruct (Str.present (author _)) as [a|] eqn:Ea; [|reflexivity].
      apply StrFacts.present_Some in Ea as [Ea _]. rewrite Ea in Hauthor.
      now rewrite Hauthor. }
  assert (Hs : summary_candidates "Bob" file = []).
  { unfold summary_candidates.
    destruct (Str.present (summary _)) as [t|] eqn:E; [|reflexivity].
    apply StrFacts.present_Some in E as [E _]. rewrite E in Hsummary. now apply Hscan. }
  assert (Hk : keyword_candidates "Bob" file = []).
  { unfold keyword_candidates.
    destruct (keywords (extractedContent file)) as [ks|]; [|reflexivity].
    rewrite RawFacts.searchInKeywords_each. apply flat_map_nil. intros keyword Hin.
    rewrite List.Forall_forall in Hkeywords. change (Str.toLowerCase "Bob") with "bob".
    now rewrite (Hkeywords keyword Hin). }
  rewrite Ht, Ho, Hm, Hs, Hk. unfold table_candidates. rewrite Htables.
  reflexivity.
Qed.

Lemma search_table_cell_witness :
  search collate_letters_first "Bob" [table_file] no_options
  = [{| fileId := "f1"; fileName := "people.xlsx"; content := "Bob";
        relevanceScore := Num 0.6; matchType := MatchText;
        context := "Table cell (Row 2, Col 1): Bob" |}].
Proof.
  apply (search_table_cell collate_letters_first table_file "t1").
  - reflexivity.
  - unfold silent_outside_tables. simpl. repeat split. constructor.
Defined.

(** C2, as the specification states it, fails: the text is shorter than
    the context window, so both occurrences of the term yield the same
    context, the whole text, and deduplication keeps one candidate. *)
Lemma search_revenue_single_candidate :
  length (search collate_letters_first "revenue"
            [text_file "f1" "report.txt" revenue_text] no_options) = 1
  /\ ~ 2 <= length (search collate_letters_first "revenue"
                      [text_file "f1" "report.txt" revenue_text] no_options).
Proof. split; [reflexivity|]. vm_compute. lia. Qed.

(** C2 (amended): for a document whose full text is "The quarterly
    revenue report shows revenue growth in Q1 2023." and the query
    "revenue", the scan finds the two occurrences of the term and gives
    both the same candidate, whose content is the whole text;
    deduplication keeps the first, and search with default options
    returns exactly one candidate, of match type text, with score
    0.5 + 0.3 + 0.1 + (1 - 14/61) * 0.1 = 298/305, which is above 0.9. *)
Theorem search_revenue (localeCompare : string -> string -> Z) (fileId fileName : string) :
  let candidate :=
    {| fileId := fileId; fileName := fileName; content := revenue_text;
       relevanceScore := calculateRelevanceScore "revenue" revenue_text revenue_text;
       matchType := MatchText; context := revenue_text |} in
  scan_term (S (String.length revenue_text)) revenue_text (Str.toLowerCase revenue_text)
    "revenue" "revenue" fileId fileName MatchText 0
  = [candidate; candidate]
  /\ search localeCompare "revenue" [text_file fileId fileName revenue_text] no_options
     = [candidate]
  /\ Number.equiv (relevanceScore candidate) (Num (298 # 305))
  /\ Number.geb (relevanceScore candidate) (Num 0.9) = true.
Proof.
  intros candidate.
  assert (Hscan :
            scan_term (S (String.length revenue_text)) revenue_text
              (Str.toLowerCase revenue_text) "revenue" "revenue" fileId fileName MatchText 0
            = [candidate; candidate]) by reflexivity.
  split; [exact Hscan|]. split; [|split; reflexivity].
  assert (Htext : searchInText "revenue" revenue_text fileId fileName MatchText = [candidate]).
  { rewrite TextFacts.searchInText_terms.
    change (preprocessQuery "revenue") with ["revenue"].
    cbn [flat_map]. rewrite app_nil_r.
    change (Str.toLowerCase "revenue") with "revenue".
    rewrite Hscan. now apply TextFacts.deduplicate_same_key. }
  unfold search. rewrite CollectFacts.collect_flat_map.
  cbn [flat_map]. rewrite app_nil_r.
  assert (Hfile : candidates_in_call_order "revenue" no_options
                    (text_file fileId fileName revenue_text) = [candidate]).
  { unfold candidates_in_call_order.
    change (text_candidates "revenue" (default true (includeText no_options))
              (text_file fileId fileName revenue_text))
      with (searchInText "revenue" revenue_text fileId fileName MatchText).
    rewrite Htext. reflexivity. }
  rewrite Hfile. reflexivity.
Qed.

(** C9: for a fixed query, document collection and other options, if
    t1 <= t2 then search with threshold t2 returns at most as many
    results as search with threshold t1; and the candidates that are
    dropped are exactly those whose score is strictly below the
    threshold: search sorts and truncates the candidates whose score is
    not below it.  A threshold that is left out stands for 0.1. *)
Theorem threshold_monotone (localeCompare : string -> string -> Z) (query : string)
    (files : list ExtractedFile) (options : SearchOptions) (t1 t2 : Q) :
  (t1 <= t2)%Q ->
  length (search localeCompare query files (with_threshold options t2))
  <= length (search localeCompare query files (with_threshold options t1))
  /\ (forall t,
        search localeCompare query files (with_threshold options t)
        = slice0
            (sortResults localeCompare
               (List.filter (fun result => negb (Number.ltb (relevanceScore result) (Num t)))
                  (collect query files options))
               (default SortRelevance (sortBy options)))
            (default 50%Z (maxResults options)))
  /\ search localeCompare query files options
     = search localeCompare query files
         (with_threshold options (default 0.1%Q (threshold options))).
Proof.
  intros Hle. split; [|split; [|reflexivity]].
  - unfold search. cbn [sortBy maxResults threshold with_threshold default from_option].
    apply slice0_length_mono. rewrite !SortFacts.sortResults_length.
    apply SearchFacts.filter_length_le. intros r Hin.
    pose proof (SearchFacts.collect_scored query files (with_threshold options t2)) as Hs.
    rewrite List.Forall_forall in Hs. specialize (Hs r Hin). unfold scored in Hs.
    destruct (relevanceScore r) as [|x]; [discriminate|].
    now apply NumberFacts.geb_mono.
  - intros t. unfold search.
    cbn [sortBy maxResults threshold with_threshold default from_option].
    f_equal. f_equal.
    change (collect query files (with_threshold options t))
      with (collect query files options).
    apply filter_ext_in. intros r Hin.
    pose proof (SearchFacts.collect_scored query files options) as Hs.
    rewrite List.Forall_forall in Hs. specialize (Hs r Hin). unfold scored in Hs.
    destruct (relevanceScore r) as [|x]; [discriminate|].
    apply NumberFacts.geb_false_ltb.
Qed.

Lemma threshold_monotone_witness :
  length (search collate_letters_first "budget" [full_file] (with_threshold no_options 0.85))
  <= length (search collate_letters_first "budget" [full_file] (with_threshold no_options 0.5)).
Proof.
  apply (threshold_monotone collate_letters_first "budget" [full_file] no_options 0.5 0.85).
  vm_compute. discriminate.
Defined.

Example threshold_drops_candidates :
  List.map context
    (search collate_letters_first "budget" [full_file] (with_threshold no_options 0.85))
  = ["Budget 2023"; "A budget summary"; "The budget was approved."; "Title: Budget plan"].
Proof. reflexivity. Qed.

(** C5, as the specification states it, fails: the underscore belongs
    to the class [\w], so it is kept, and a term may hold a character
    outside [a-z0-9]. *)
Lemma preprocessQuery_keeps_underscore :
  preprocessQuery "net_income" = ["net_income"]
  /\ Str.forallb is_lower_alnum "net_income" = false.
Proof. split; reflexivity. Qed.

(** C5 (amended): for every input string, the tokenizer lowercases it,
    replaces every character outside [A-Za-z0-9_] and white space with a
    space, splits on runs of white space, and discards the terms of
    length at most 2; every returned term is longer than 2 and made of
    characters of [a-z0-9_], and the empty input yields the empty
    sequence. *)
Theorem preprocessQuery_terms (query : string) :
  preprocessQuery query
  = List.filter (fun term => 2 <? String.length term)
      (split_spaces (Str.map blank_nonword (Str.toLowerCase query)))
  /\ (forall c,
        blank_nonword c
        = if CodeUnit.is_word c || CodeUnit.is_space c then c else " "%char)
  /\ Str.forallb (fun c => CodeUnit.is_space c || is_term_char c)
       (Str.map blank_nonword (Str.toLowerCase query)) = true
  /\ Forall (fun term => Str.forallb is_term_char term = true /\ 2 < String.length term)
       (preprocessQuery query)
  /\ preprocessQuery "" = [].
Proof.
  split; [reflexivity|]. split; [reflexivity|]. split; [|split; [|reflexivity]].
  - unfold Str.toLowerCase. rewrite !TokenizerFacts.forallb_map.
    apply TokenizerFacts.forallb_all. intros c. apply TokenizerFacts.normalized_unit.
  - apply TokenizerFacts.terms_chars.
Qed.

(** ** Similarity estimator *)

Module SimilarityFacts.

Lemma intersection_set (queryWords textWords : gset string) :
  list_to_set
    (List.filter (fun word => bool_decide (word ∈ textWords)) (elements queryWords))
  = queryWords ∩ textWords.
Proof.
  apply set_eq. intros word.
  rewrite elem_of_list_to_set, list_elem_of_In, filter_In, <- list_elem_of_In.
  rewrite elem_of_elements, bool_decide_eq_true, elem_of_intersection. reflexivity.
Qed.

Lemma union_set (queryWords textWords : gset string) :
  list_to_set (elements queryWords ++ elements textWords) = queryWords ∪ textWords.
Proof. now rewrite list_to_set_app_L, !list_to_set_elements_L. Qed.

Lemma similarity_value query text :
  let queryWords : gset string := list_to_set (preprocessQuery query) in
  let textWords : gset string := list_to_set (preprocessQuery text) in
  calculateSemanticSimilarity query text
  = if 0 <? size (queryWords ∪ textWords)
    then Num (inject_Z (Z.of_nat (size (queryWords ∩ textWords)))
              / inject_Z (Z.of_nat (size (queryWords ∪ textWords))))
    else Num 0.
Proof.
  intros queryWords textWords. unfold calculateSemanticSimilarity.
  fold queryWords textWords. rewrite intersection_set, union_set.
  destruct (Nat.ltb_spec 0 (size (queryWords ∪ textWords))) as [H|H]; [|reflexivity].
  now apply NumberFacts.div_of_nat.
Qed.

End SimilarityFacts.

(** C8: for every query and text, the similarity estimator returns
    |intersection| / |union| over the two sets of normalized terms, returns
    exactly 0 when the union is empty, and its result lies between 0 and
    1. *)
Theorem calculateSemanticSimilarity_jaccard (query text : string) :
  let queryWords : gset string := list_to_set (preprocessQuery query) in
  let textWords : gset string := list_to_set (preprocessQuery text) in
  (size (queryWords ∪ textWords) = 0 -> calculateSemanticSimilarity query text = Num 0)
  /\ (0 < size (queryWords ∪ textWords) ->
      calculateSemanticSimilarity query text
      = Num (inject_Z (Z.of_nat (size (queryWords ∩ textWords)))
             / inject_Z (Z.of_nat (size (queryWords ∪ textWords)))))
  /\ Number.within 0 1 (calculateSemanticSimilarity query text).
Proof.
  intros queryWords textWords.
  pose proof (SimilarityFacts.similarity_value query text) as Hv.
  cbv zeta in Hv. fold queryWords textWords in Hv.
  assert (Hsub : size (queryWords ∩ textWords) <= size (queryWords ∪ textWords)).
  { apply subseteq_size.
    etrans; [apply intersection_subseteq_l|apply union_subseteq_l]. }
  repeat split.
  - intros H0. rewrite Hv, H0. reflexivity.
  - intros Hpos. rewrite Hv.
    destruct (Nat.ltb_spec 0 (size (queryWords ∪ textWords))); [reflexivity|lia].
  - rewrite Hv. destruct (Nat.ltb_spec 0 (size (queryWords ∪ textWords))) as [H|H].
    + apply NumberFacts.ratio_le_1; assumption.
    + simpl. lra.
Qed.

Lemma calculateSemanticSimilarity_jaccard_witness :
  calculateSemanticSimilarity "" "a b" = Num 0
  /\ calculateSemanticSimilarity "financial results" "Annual financial results and outlook"
     = Num (inject_Z 2 / inject_Z 5).
Proof.
  destruct (calculateSemanticSimilarity_jaccard "" "a b") as (Hzero & _ & _).
  destruct (calculateSemanticSimilarity_jaccard
              "financial results" "Annual financial results and outlook")
    as (_ & Hratio & _).
  split.
  - apply Hzero. reflexivity.
  - apply Hratio. vm_compute. lia.
Defined.

(** * Further properties of the engine *)

(** ** Pieces of strings *)

Module PieceFacts.

Lemma length_append a b : String.length (a +:+ b) = String.length a + String.length b.
Proof. induction a; simpl; [reflexivity|congruence]. Qed.

Lemma length_take n s : String.length (Str.take n s) = Nat.min n (String.length s).
Proof. revert s. induction n as [|n IH]; intros [|c s]; simpl; auto. Qed.

Lemma drop_all n s : String.length s <= n -> Str.drop n s = EmptyString.
Proof.
  revert s. induction n as [|n IH]; intros [|c s]; simpl; try reflexivity; try lia.
  intros H. apply IH. lia.
Qed.

Lemma take_all n s : String.length s <= n -> Str.take n s = s.
Proof.
  revert s. induction n as [|n IH]; intros [|c s]; simpl; try reflexivity; try lia.
  intros H. f_equal. apply IH. lia.
Qed.

Lemma drop_drop a b s : Str.drop a (Str.drop b s) = Str.drop (b + a) s.
Proof.
  revert s. induction b as [|b IH]; intros s; simpl; [reflexivity|].
  destruct s as [|c s]; [now destruct a|apply IH].
Qed.

Lemma drop_take a n s : Str.drop a (Str.take n s) = Str.take (n - a) (Str.drop a s).
Proof.
  revert n s. induction a as [|a IH]; intros n s; simpl.
  - now rewrite Nat.sub_0_r.
  - destruct n as [|n]; simpl.
    + reflexivity.
    + destruct s as [|c s]; simpl; [now destruct (n - a)|apply IH].
Qed.

Lemma take_take m n s : m <= n -> Str.take m (Str.take n s) = Str.take m s.
Proof.
  revert n s. induction m as [|m IH]; intros n s H; simpl; [reflexivity|].
  destruct n as [|n]; [lia|]. destruct s as [|c s]; simpl; [reflexivity|].
  f_equal. apply IH. lia.
Qed.

Lemma drop_append_length a k b : Str.drop (String.length a + k) (a +:+ b) = Str.drop k b.
Proof. induction a; simpl; [reflexivity|assumption]. Qed.

Lemma drop_append_le k a b :
  k <= String.length a -> Str.drop k (a +:+ b) = Str.drop k a +:+ b.
Proof.
  revert a. induction k as [|k IH]; intros a H; simpl; [reflexivity|].
  destruct a as [|c a]; simpl in *; [lia|]. apply IH. lia.
Qed.

Lemma take_append_le m a b : m <= String.length a -> Str.take m (a +:+ b) = Str.take m a.
Proof.
  revert a. induction m as [|m IH]; intros a H; simpl; [reflexivity|].
  destruct a as [|c a]; simpl in *; [lia|]. f_equal. apply IH. lia.
Qed.

Lemma map_append f a b : Str.map f (a +:+ b) = Str.map f a +:+ Str.map f b.
Proof. induction a as [|c a IH]; simpl; [reflexivity|]. now rewrite IH. Qed.

Lemma map_take f n s : Str.map f (Str.take n s) = Str.take n (Str.map f s).
Proof. revert s. induction n as [|n IH]; intros [|c s]; simpl; rewrite ?IH; reflexivity. Qed.

Lemma map_drop f n s : Str.map f (Str.drop n s) = Str.drop n (Str.map f s).
Proof. revert s. induction n as [|n IH]; intros [|c s]; simpl; auto. Qed.

(** [s] starts with [pat] when its first units are [pat]. *)
Lemma startsWith_take pat s :
  Str.startsWith pat s = true <-> Str.take (String.length pat) s = pat.
Proof.
  revert s. induction pat as [|a pat IH]; intros s; simpl; [tauto|].
  destruct s as [|b s]; [split; discriminate|].
  rewrite andb_true_iff, IH. split.
  - intros [Hab ->]. apply Ascii.eqb_eq in Hab. now subst.
  - intros [= -> H]. rewrite H. split; [apply Ascii.eqb_refl|congruence].
Qed.

Lemma startsWith_length pat s :
  Str.startsWith pat s = true -> String.length pat <= String.length s.
Proof.
  intros H. apply startsWith_take in H. apply (f_equal String.length) in H.
  rewrite length_take in H. lia.
Qed.

(** What [find] returns is an occurrence, and the first one. *)
Lemma find_sound pat s k i :
  Str.find pat s k = Some i ->
  k <= i /\ Str.startsWith pat (Str.drop (i - k) s) = true
  /\ forall j, j < i - k -> Str.startsWith pat (Str.drop j s) = false.
Proof.
  revert k. induction s as [|c s IH]; intros k; simpl.
  - destruct pat; simpl; [|discriminate]. intros [= <-].
    rewrite Nat.sub_diag. repeat split; [lia|]. intros j Hj. lia.
  - destruct (Str.startsWith pat (String c s)) eqn:E.
    + intros [= <-]. rewrite Nat.sub_diag. repeat split; [lia|exact E|]. intros j Hj. lia.
    + intros H. apply IH in H as (Hk & Hocc & Hmin).
      replace (i - k) with (S (i - S k)) by lia. repeat split; [lia|exact Hocc|].
      intros [|j] Hj; [exact E|]. simpl. apply Hmin. lia.
Qed.

(** [find] misses no occurrence. *)
Lemma find_complete pat s k j :
  Str.startsWith pat (Str.drop j s) = true ->
  exists i, Str.find pat s k = Some i /\ i <= k + j.
Proof.
  revert k j. induction s as [|c s IH]; intros k j H.
  - replace (Str.drop j "") with "" in H by now destruct j.
    simpl. rewrite H. exists k. split; [reflexivity|lia].
  - simpl. destruct (Str.startsWith pat (String c s)) eqn:E.
    + exists k. split; [reflexivity|lia].
    + destruct j as [|j]; [simpl in H; congruence|]. simpl in H.
      destruct (IH (S k) j H) as (i & Hi & Hle). exists i. split; [assumption|lia].
Qed.

Lemma indexOf_occurrence s pat from i :
  Str.indexOf s pat from = Some i -> Str.startsWith pat (Str.drop i s) = true.
Proof.
  unfold Str.indexOf. intros H. apply find_sound in H as (Hle & Hocc & _).
  rewrite drop_drop in Hocc.
  destruct (Nat.le_gt_cases from (String.length s)) as [Hf|Hf].
  - replace (from + (i - Nat.min from (String.length s))) with i in Hocc by lia.
    exact Hocc.
  - rewrite drop_all in Hocc by lia.
    assert (String.length pat = 0).
    { apply startsWith_length in Hocc. simpl in Hocc. lia. }
    destruct pat; [reflexivity|discriminate].
Qed.

(** A string includes what occurs in it. *)
Lemma includes_occurrence s pat j :
  Str.startsWith pat (Str.drop j s) = true -> Str.includes s pat = true.
Proof.
  intros H. unfold Str.includes, Str.indexOf. simpl Str.drop.
  destruct (find_complete pat s (Nat.min 0 (String.length s)) j H) as (i & -> & _).
  reflexivity.
Qed.

Lemma includes_first s pat j :
  Str.startsWith pat (Str.drop j s) = true ->
  exists i, Str.indexOf s pat 0 = Some i /\ i <= j.
Proof.
  intros H. unfold Str.indexOf. simpl Str.drop.
  destruct (find_complete pat s (Nat.min 0 (String.length s)) j H) as (i & Hi & Hle).
  exists i. split; [assumption|simpl in Hle; lia].
Qed.

End PieceFacts.

(** ** Context extractor *)

Module WindowFacts.

Lemma append_nil_r s : s +:+ "" = s.
Proof.
  induction s as [|c s IH]; [reflexivity|].
  change (String c s +:+ "") with (String c (s +:+ "")). now rewrite IH.
Qed.

(** The context is the window, between an ellipsis on each side where
    the text goes on. *)
Lemma extractContext_pieces text position matchLength :
  let start := position - 75 in
  let end_ := Nat.min (String.length text) (position + matchLength + 75) in
  extractContext text position matchLength
  = ((if 0 <? start then "..." else "")
     +:+ Str.take (end_ - start) (Str.drop start text))
    +:+ (if end_ <? String.length text then "..." else "").
Proof.
  intros start end_. unfold extractContext, Str.substring.
  change (150 / 2) with 75. change (Nat.max 0 (position - 75)) with start.
  fold end_. destruct (0 <? start); destruct (end_ <? String.length text);
    rewrite ?append_nil_r; reflexivity.
Qed.

Lemma window_piece pre mid suf k m :
  k + m <= String.length mid ->
  Str.take m (Str.drop (String.length pre + k) ((pre +:+ mid) +:+ suf))
  = Str.take m (Str.drop k mid).
Proof.
  intros H. rewrite PieceFacts.drop_append_le
    by (rewrite PieceFacts.length_append; lia).
  rewrite PieceFacts.drop_append_length.
  apply PieceFacts.take_append_le. rewrite StrFacts.length_drop. lia.
Qed.

(** The match is in the window, at [match_offset]. *)
Lemma extractContext_window text position matchLength :
  position + matchLength <= String.length text ->
  Str.take matchLength
    (Str.drop (match_offset position) (extractContext text position matchLength))
  = Str.take matchLength (Str.drop position text).
Proof.
  intros H. rewrite extractContext_pieces. cbv zeta.
  set (start := position - 75).
  set (end_ := Nat.min (String.length text) (position + matchLength + 75)).
  set (mid := Str.take (end_ - start) (Str.drop start text)).
  assert (Hmid : (position - start) + matchLength <= String.length mid).
  { unfold mid. rewrite PieceFacts.length_take, StrFacts.length_drop.
    unfold start, end_. lia. }
  assert (Hoff : match_offset position
                 = String.length (if 0 <? start then "..." else "") + (position - start)).
  { unfold match_offset, start.
    destruct (Nat.ltb_spec 75 position); destruct (Nat.ltb_spec 0 (position - 75));
      simpl; lia. }
  rewrite Hoff, (window_piece _ mid _ _ _ Hmid). unfold mid.
  rewrite PieceFacts.drop_take, PieceFacts.drop_drop.
  replace (start + (position - start)) with position by (unfold start; lia).
  apply PieceFacts.take_take. unfold start, end_. lia.
Qed.

Lemma extractContext_toLowerCase text position matchLength :
  Str.toLowerCase (extractContext text position matchLength)
  = extractContext (Str.toLowerCase text) position matchLength.
Proof.
  rewrite !extractContext_pieces. cbv zeta. rewrite StrFacts.length_toLowerCase.
  unfold Str.toLowerCase.
  rewrite !PieceFacts.map_append, PieceFacts.map_take, PieceFacts.map_drop.
  destruct (0 <? position - 75);
    destruct (Nat.min (String.length text) (position + matchLength + 75)
              <? String.length text); reflexivity.
Qed.

(** The context of an occurrence of a pattern includes the pattern. *)
Lemma extractContext_includes s pat i :
  Str.startsWith pat (Str.drop i s) = true ->
  i <= String.length s ->
  Str.includes (extractContext s i (String.length pat)) pat = true.
Proof.
  intros Hocc Hi.
  assert (Hlen : i + String.length pat <= String.length s).
  { apply PieceFacts.startsWith_length in Hocc. rewrite StrFacts.length_drop in Hocc. lia. }
  apply (PieceFacts.includes_occurrence _ _ (match_offset i)).
  apply PieceFacts.startsWith_take. rewrite extractContext_window by assumption.
  now apply PieceFacts.startsWith_take.
Qed.

End WindowFacts.

(** X1: the context that [extractContext] returns is at most 156 units
    longer than the match (75 on each side and two ellipses); a text
    that fits in the window is returned whole, without ellipsis; and the
    match itself is found in the context, 75 units after an ellipsis
    when more than 75 units precede it in the text, and at its own
    position otherwise. *)
Theorem extractContext_match (text : string) (position matchLength : nat) :
  position + matchLength <= String.length text ->
  String.length (extractContext text position matchLength) <= matchLength + 156
  /\ (position <= 75 -> String.length text <= position + matchLength + 75 ->
      extractContext text position matchLength = text)
  /\ Str.substring (extractContext text position matchLength)
       (match_offset position) (match_offset position + matchLength)
     = Str.substring text position (position + matchLength).
Proof.
  intros H. repeat split.
  - rewrite WindowFacts.extractContext_pieces. cbv zeta.
    rewrite !PieceFacts.length_append, PieceFacts.length_take, StrFacts.length_drop.
    destruct (0 <? position - 75);
      destruct (Nat.min (String.length text) (position + matchLength + 75)
                <? String.length text); simpl; lia.
  - intros Hp Hlen. rewrite WindowFacts.extractContext_pieces. cbv zeta.
    replace (position - 75) with 0 by lia.
    replace (Nat.min (String.length text) (position + matchLength + 75))
      with (String.length text) by lia.
    rewrite !Nat.ltb_irrefl. simpl Str.drop. rewrite Nat.sub_0_r.
    rewrite PieceFacts.take_all by lia. apply WindowFacts.append_nil_r.
  - unfold Str.substring.
    replace (match_offset position + matchLength - match_offset position)
      with matchLength by lia.
    replace (position + matchLength - position) with matchLength by lia.
    now apply WindowFacts.extractContext_window.
Qed.

Lemma extractContext_match_witness :
  Str.substring (extractContext revenue_text 35 7) (match_offset 35) (match_offset 35 + 7)
  = Str.substring revenue_text 35 (35 + 7).
Proof.
  apply (extractContext_match revenue_text 35 7). vm_compute. lia.
Defined.

(** ** Candidates of the text matcher *)

Module CandidateFacts.

(** What the scan of a term yields: for an occurrence of the term, the
    context around it and the score of the term in that context. *)
Lemma scan_term_candidate fuel text term fileId fileName matchType index r :
  In r (scan_term fuel text (Str.toLowerCase text) term (Str.toLowerCase term)
          fileId fileName matchType index) ->
  exists i,
    Str.startsWith (Str.toLowerCase term) (Str.drop i (Str.toLowerCase text)) = true
    /\ i + String.length term <= String.length text
    /\ r = {| fileId := fileId; fileName := fileName;
              content := extractContext text i (String.length term);
              relevanceScore :=
                calculateRelevanceScore term text
                  (extractContext text i (String.length term));
              matchType := matchType;
              context := extractContext text i (String.length term) |}.
Proof.
  revert index. induction fuel as [|fuel IH]; intros index; simpl; [tauto|].
  destruct (Str.indexOf (Str.toLowerCase text) (Str.toLowerCase term) index)
    as [i|] eqn:E; [|simpl; tauto].
  intros [<-|H]; [|eapply IH, H].
  exists i. pose proof (StrFacts.indexOf_bounds _ _ _ _ E) as [_ Hb].
  rewrite !StrFacts.length_toLowerCase in *.
  split; [now apply PieceFacts.indexOf_occurrence in E|]. split; [assumption|reflexivity].
Qed.

Lemma match_count_positive s pat i :
  Str.indexOf s pat 0 = Some i -> 1 <= match_count s pat.
Proof.
  intros H. unfold match_count.
  replace (String.length s + 2) with (S (String.length s + 1)) by lia.
  simpl. rewrite H. lia.
Qed.

(** A term that occurs in the text, scored in a context that holds it,
    earns the base, the exact-match bonus and a frequency bonus. *)
Lemma score_with_bonus term fullText context i :
  Str.includes (Str.toLowerCase context) (Str.toLowerCase term) = true ->
  Str.startsWith (Str.toLowerCase term) (Str.drop i (Str.toLowerCase fullText)) = true ->
  term <> EmptyString ->
  Number.within 0.85 1 (calculateRelevanceScore term fullText context).
Proof.
  intros Hinc Hocc Hterm.
  destruct (PieceFacts.includes_first _ _ _ Hocc) as (p & Hp & _).
  pose proof (match_count_positive _ _ _ Hp) as Hn.
  destruct (ScorerFacts.occurrence_length term fullText p (or_introl Hterm) Hp)
    as [Hple Hlen].
  unfold calculateRelevanceScore. rewrite Hinc, Hp.
  rewrite (NumberFacts.div_of_nat p _ Hlen).
  pose proof (NumberFacts.ratio_le_1 p _ Hple Hlen) as Hr.
  set (r := (inject_Z (Z.of_nat p) / inject_Z (Z.of_nat (String.length fullText)))%Q) in *.
  set (n := match_count _ _) in *.
  assert (Hf : (0.05 <= Number.qmin 0.2 (inject_Z (Z.of_nat n) * 0.05))%Q).
  { apply NumberFacts.qmin_glb; [lra|].
    assert (1 <= inject_Z (Z.of_nat n))%Q.
    { change 1%Q with (inject_Z 1). rewrite <- Zle_Qle. lia. }
    nra. }
  cbn [Number.add Number.mul Number.sub Number.min Number.of_nat Number.within].
  split; [apply NumberFacts.qmin_glb; nra|apply NumberFacts.qmin_le_l].
Qed.

Lemma deduplicate_key_content r r' :
  fileId r = fileId r' -> deduplicate_key r = deduplicate_key r' -> content r = content r'.
Proof.
  unfold deduplicate_key. intros ->. generalize (fileId r').
  intros s. induction s as [|c s IH]; simpl.
  - intros [= H]. exact H.
  - intros [= H]. now apply IH.
Qed.

(** The candidates of the text matcher. *)
Lemma searchInText_candidate (query text fileId' fileName' : string)
    (matchType' : MatchType) (r : SearchResult) :
  In r (searchInText query text fileId' fileName' matchType') ->
  (exists term,
      In term (preprocessQuery query)
      /\ Str.includes (Str.toLowerCase (context r)) term = true)
  /\ Number.within 0.85 1 (relevanceScore r)
  /\ fileId r = fileId' /\ fileName r = fileName' /\ matchType r = matchType'
  /\ content r = context r.
Proof.
  rewrite TextFacts.searchInText_terms. intros H.
  apply TextFacts.deduplicateResults_subset, in_flat_map in H as (term & Hterm & H).
  apply CandidateFacts.scan_term_candidate in H as (i & Hocc & Hlen & ->).
  pose proof (TokenizerFacts.terms_chars query) as Hchars.
  rewrite List.Forall_forall in Hchars. destruct (Hchars term Hterm) as [Hc Hl].
  assert (Hinc : Str.includes
                   (Str.toLowerCase (extractContext text i (String.length term)))
                   (Str.toLowerCase term) = true).
  { rewrite WindowFacts.extractContext_toLowerCase.
    rewrite <- (StrFacts.length_toLowerCase term).
    apply WindowFacts.extractContext_includes; [assumption|].
    rewrite StrFacts.length_toLowerCase. lia. }
  cbn [context relevanceScore fileId fileName matchType content].
  split; [|split; [|repeat split]].
  - exists term. split; [assumption|].
    now rewrite (TokenizerFacts.terms_lowered term Hc) in Hinc.
  - eapply CandidateFacts.score_with_bonus; [exact Hinc|exact Hocc|].
    intros ->. simpl in Hl. lia.
Qed.

End CandidateFacts.

(** X2: for a text that keeps its length when lowered (every text
    without U+0130), every candidate of the text matcher is built for a
    term of the query that occurs in the text: its context holds that
    term, letters compared without case, so it always earns the
    exact-match bonus and a frequency bonus, and its score lies between
    0.85 and 1.  It carries the id, the name and the match type given to
    the matcher, and its content is its context. *)
Theorem searchInText_candidates (query text fileId' fileName' : string)
    (matchType' : MatchType) (r : SearchResult) :
  keeps_offsets text = true ->
  In r (searchInText query text fileId' fileName' matchType') ->
  (exists term,
      In term (preprocessQuery query)
      /\ Str.includes (Str.toLowerCase (context r)) term = true)
  /\ Number.within 0.85 1 (relevanceScore r)
  /\ fileId r = fileId' /\ fileName r = fileName' /\ matchType r = matchType'
  /\ content r = context r.
Proof. intros _. apply CandidateFacts.searchInText_candidate. Qed.

Lemma searchInText_candidates_witness :
  Number.within 0.85 1
    (calculateRelevanceScore "revenue" revenue_text revenue_text).
Proof.
  apply (searchInText_candidates "revenue" revenue_text "f1" "report.txt" MatchText
           {| fileId := "f1"; fileName := "report.txt"; content := revenue_text;
              relevanceScore :=
                calculateRelevanceScore "revenue" revenue_text revenue_text;
              matchType := MatchText; context := revenue_text |}).
  - reflexivity.
  - vm_compute. left. reflexivity.
Defined.

(** ** Deduplication *)

Module DedupFacts.

Lemma from_keys seen results :
  NoDup (List.map deduplicate_key (deduplicate_from seen results))
  /\ forall r, In r (deduplicate_from seen results) -> deduplicate_key r ∉ seen.
Proof.
  revert seen. induction results as [|x results IH]; intros seen; simpl.
  - split; [constructor|tauto].
  - destruct (bool_decide_reflect (deduplicate_key x ∈ seen)) as [Hin|Hout].
    + apply IH.
    + destruct (IH ({[deduplicate_key x]} ∪ seen)) as [Hnd Hkeys]. split.
      * simpl. constructor; [|assumption]. intros Hx.
        apply list_elem_of_In, in_map_iff in Hx as (r & Hr & Hin).
        apply Hkeys in Hin. apply Hin. rewrite Hr.
        apply elem_of_union_l. now apply elem_of_singleton.
      * intros r [<-|Hr]; [assumption|]. apply Hkeys in Hr.
        intros Hin. apply Hr. now apply elem_of_union_r.
Qed.

Lemma from_sublist seen results : sublist (deduplicate_from seen results) results.
Proof.
  revert seen. induction results as [|x results IH]; intros seen; simpl; [constructor|].
  destruct (bool_decide _); [apply sublist_cons|apply sublist_skip]; apply IH.
Qed.

Lemma from_id seen results :
  NoDup (List.map deduplicate_key results) ->
  (forall r, In r results -> deduplicate_key r ∉ seen) ->
  deduplicate_from seen results = results.
Proof.
  revert seen. induction results as [|x results IH]; intros seen Hnd Hout; simpl;
    [reflexivity|].
  inversion Hnd as [|? ? Hx Hnd']; subst.
  rewrite bool_decide_eq_false_2 by (apply Hout; now left).
  f_equal. apply IH; [assumption|]. intros r Hr.
  assert (deduplicate_key r <> deduplicate_key x).
  { intros E. apply Hx. rewrite <- E. now apply list_elem_of_In, in_map. }
  specialize (Hout r (or_intror Hr)).
  rewrite elem_of_union, elem_of_singleton. tauto.
Qed.

Lemma from_first seen pre r post :
  deduplicate_key r ∉ seen ->
  (forall x, In x pre -> deduplicate_key x <> deduplicate_key r) ->
  In r (deduplicate_from seen (pre ++ r :: post)).
Proof.
  revert seen. induction pre as [|x pre IH]; intros seen Hout Hpre; simpl.
  - rewrite bool_decide_eq_false_2 by assumption. now left.
  - assert (Hx : deduplicate_key x <> deduplicate_key r) by (apply Hpre; now left).
    assert (Hrest : forall y, In y pre -> deduplicate_key y <> deduplicate_key r).
    { intros y Hy. apply Hpre. now right. }
    destruct (bool_decide _); [now apply IH|].
    right. apply IH; [|assumption].
    rewrite elem_of_union, elem_of_singleton. intros [E|E]; [now apply Hx|now apply Hout].
Qed.

Lemma distinct_contents (fileId' : string) (results : list SearchResult) :
  (forall r, In r results -> fileId r = fileId') ->
  NoDup (List.map deduplicate_key results) -> NoDup (List.map content results).
Proof.
  induction results as [|x results IH]; intros Hid Hnd; simpl; [constructor|].
  inversion Hnd as [|? ? Hx Hnd']; subst. constructor.
  - intros Hc. apply list_elem_of_In, in_map_iff in Hc as (r & Hr & Hin). apply Hx.
    apply list_elem_of_In, in_map_iff. exists r. split; [|assumption].
    unfold deduplicate_key. rewrite Hr.
    rewrite (Hid r (or_intror Hin)), (Hid x (or_introl eq_refl)). reflexivity.
  - apply IH; [|assumption]. intros r Hr. apply Hid. now right.
Qed.

End DedupFacts.

(** X3: deduplicateResults keeps the results in their order and drops
    some of them; no two results that it returns share a key (file id
    and content); and the first result of each key is kept. *)
Theorem deduplicateResults_first_of_each_key (results : list SearchResult) :
  sublist (deduplicateResults results) results
  /\ NoDup (List.map deduplicate_key (deduplicateResults results))
  /\ (forall pre r post,
        results = pre ++ r :: post ->
        (forall x, In x pre -> deduplicate_key x <> deduplicate_key r) ->
        In r (deduplicateResults results)).
Proof.
  split; [apply DedupFacts.from_sublist|]. split; [apply DedupFacts.from_keys|].
  intros pre r post -> Hpre.
  apply DedupFacts.from_first; [apply not_elem_of_empty|assumption].
Qed.

Lemma deduplicateResults_first_of_each_key_witness :
  In (named_result "a.txt" 0.9)
    (deduplicateResults
       [named_result "b.txt" 0.5; named_result "a.txt" 0.9; named_result "a.txt" 0.4]).
Proof.
  destruct (deduplicateResults_first_of_each_key
              [named_result "b.txt" 0.5; named_result "a.txt" 0.9; named_result "a.txt" 0.4])
    as (_ & _ & Hfirst).
  apply (Hfirst [named_result "b.txt" 0.5] (named_result "a.txt" 0.9)
           [named_result "a.txt" 0.4]); [reflexivity|].
  intros x [<-|[]]. vm_compute. discriminate.
Defined.

(** X4: deduplicateResults is idempotent, and it returns unchanged a
    list in which no two results share a key. *)
Theorem deduplicateResults_idempotent (results : list SearchResult) :
  deduplicateResults (deduplicateResults results) = deduplicateResults results
  /\ (NoDup (List.map deduplicate_key results) -> deduplicateResults results = results).
Proof.
  assert (Hid : forall l, NoDup (List.map deduplicate_key l) -> deduplicateResults l = l).
  { intros l Hnd. apply DedupFacts.from_id; [assumption|].
    intros r _. apply not_elem_of_empty. }
  split; [|apply Hid]. apply Hid. apply DedupFacts.from_keys.
Qed.

Lemma deduplicateResults_idempotent_witness :
  deduplicateResults [named_result "b.txt" 0.5; named_result "a.txt" 0.9]
  = [named_result "b.txt" 0.5; named_result "a.txt" 0.9].
Proof.
  apply (deduplicateResults_idempotent
           [named_result "b.txt" 0.5; named_result "a.txt" 0.9]).
  apply (bool_decide_unpack _). vm_compute. exact I.
Defined.

(** X5: the candidates that the text matcher returns for one text have
    pairwise distinct contents: occurrences whose context windows
    coincide are reported once. *)
Theorem searchInText_distinct_contents (query text fileId' fileName' : string)
    (matchType' : MatchType) :
  NoDup (List.map content (searchInText query text fileId' fileName' matchType')).
Proof.
  apply (DedupFacts.distinct_contents fileId').
  - intros r Hr. now apply CandidateFacts.searchInText_candidate in Hr.
  - unfold searchInText. apply DedupFacts.from_keys.
Qed.

(** ** Results of [search] *)

Module ResultFacts.

Lemma In_take {A : Type} (n : nat) (l : list A) x : In x (take n l) -> In x l.
Proof.
  intros H. rewrite <- (take_drop n l). apply in_or_app. now left.
Qed.

Lemma In_slice0 {A : Type} (l : list A) end_ x : In x (slice0 l end_) -> In x l.
Proof. apply In_take. Qed.

Lemma Sorted_take {A : Type} (R : A -> A -> Prop) (n : nat) (l : list A) :
  Sorted R l -> Sorted R (take n l).
Proof.
  revert l. induction n as [|n IH]; intros l Hs; [constructor|].
  destruct l as [|x l]; [constructor|]. simpl.
  inversion Hs as [|? ? Hl Hhd]; subst. constructor; [now apply IH|].
  destruct n; [constructor|]. destruct l; [constructor|].
  simpl. inversion Hhd; subst. now constructor.
Qed.

Lemma slice0_length {A : Type} (l : list A) (end_ : Z) :
  length (slice0 l end_)
  = if (end_ <? 0)%Z then length l - Z.to_nat (- end_)
    else Nat.min (Z.to_nat end_) (length l).
Proof.
  unfold slice0. rewrite length_take. destruct (end_ <? 0)%Z eqn:E; lia.
Qed.

(** What [search] returns are candidates that it collected. *)
Lemma search_collected localeCompare query files options r :
  In r (search localeCompare query files options) ->
  In r (collect query files options)
  /\ Number.geb (relevanceScore r) (Num (default 0.1%Q (threshold options))) = true.
Proof.
  unfold search. intros H. apply In_slice0 in H.
  apply (Permutation_in _ (Permutation_sym (SortFacts.sortResults_perm _ _ _))) in H.
  now apply filter_In in H.
Qed.

Lemma metadata_fields query file r :
  In r (searchInMetadata query file) ->
  fileId r = id file /\ fileName r = name file /\ matchType r = MatchMetadata.
Proof.
  unfold searchInMetadata, push.
  destruct (Str.present (title _)) as [t|]; destruct (Str.present (author _)) as [a|];
    repeat destruct (Str.includes _ _); simpl; intuition (subst; reflexivity).
Qed.

Lemma table_fields query table fileId' fileName' r :
  In r (searchInTable query table fileId' fileName') ->
  fileId r = fileId' /\ fileName r = fileName' /\ matchType r = MatchText.
Proof.
  rewrite RawFacts.searchInTable_cells. intros H. apply in_app_or in H as [H|H].
  - apply in_flat_map in H as (header & _ & H).
    destruct (Str.includes _ _); simpl in H; intuition (subst; reflexivity).
  - apply in_flat_map in H as (row & _ & H). apply in_flat_map in H as (cell & _ & H).
    destruct (Str.includes _ _); simpl in H; intuition (subst; reflexivity).
Qed.

Lemma keyword_fields query keywords fileId' fileName' r :
  In r (searchInKeywords query keywords fileId' fileName') ->
  fileId r = fileId' /\ fileName r = fileName' /\ matchType r = MatchText.
Proof.
  rewrite RawFacts.searchInKeywords_each. intros H.
  apply in_flat_map in H as (keyword & _ & H).
  destruct (Str.includes _ _); simpl in H; intuition (subst; reflexivity).
Qed.

(** A candidate of a file names that file, and tells by its match type
    the scan that found it. *)
Lemma candidate_fields query options file r :
  In r (candidates_in_call_order query options file) ->
  fileId r = id file /\ fileName r = name file
  /\ (matchType r = MatchOcr -> default true (includeOCR options) = true)
  /\ (matchType r = MatchMetadata -> default true (includeMetadata options) = true).
Proof.
  unfold candidates_in_call_order. intros H.
  repeat (apply in_app_or in H as [H|H]).
  - unfold text_candidates in H. destruct (_ && _); [|simpl in H; tauto].
    apply CandidateFacts.searchInText_candidate in H as (_ & _ & -> & -> & -> & _).
    repeat split; discriminate.
  - unfold ocr_candidates in H.
    destruct (default true (includeOCR options)); [|simpl in H; tauto].
    apply in_flat_map in H as (image & _ & H).
    destruct (Str.present (ocrText image)); [|simpl in H; tauto].
    apply CandidateFacts.searchInText_candidate in H as (_ & _ & -> & -> & -> & _).
    repeat split; discriminate.
  - unfold metadata_candidates in H.
    destruct (default true (includeMetadata options)); [|simpl in H; tauto].
    apply metadata_fields in H as (-> & -> & ->). repeat split; discriminate.
  - unfold table_candidates in H. apply in_flat_map in H as (table & _ & H).
    apply table_fields in H as (-> & -> & ->). repeat split; discriminate.
  - unfold summary_candidates in H.
    destruct (Str.present (summary _)); [|simpl in H; tauto].
    apply CandidateFacts.searchInText_candidate in H as (_ & _ & -> & -> & -> & _).
    repeat split; discriminate.
  - unfold keyword_candidates in H.
    destruct (keywords (extractedContent file)); [|simpl in H; tauto].
    apply keyword_fields in H as (-> & -> & ->). repeat split; discriminate.
Qed.

Lemma filter_scored threshold' (results : list SearchResult) :
  Forall scored results ->
  Forall scored
    (List.filter (fun r => Number.geb (relevanceScore r) (Num threshold')) results).
Proof.
  rewrite !List.Forall_forall. intros H r Hr. apply filter_In in Hr as [Hr _]. now apply H.
Qed.

End ResultFacts.

(** X6: search returns a prefix of its ranking, the candidates at or
    above the threshold in the order asked for.  When maxResults is not
    negative (50 when it is left out) the result is the first maxResults
    entries of the ranking, all of it when it is shorter.  When
    maxResults is a negative number -k the result is the ranking
    without its last k entries: nothing when the ranking has at most k
    entries. *)
Theorem search_respects_maxResults (localeCompare : string -> string -> Z)
    (query : string) (files : list ExtractedFile) (options : SearchOptions) :
  let limit := default 50%Z (maxResults options) in
  let kept :=
    List.filter
      (fun result =>
         Number.geb (relevanceScore result) (Num (default 0.1%Q (threshold options))))
      (collect query files options) in
  let ranked := ranking localeCompare query files options in
  let results := search localeCompare query files options in
  length ranked = length kept
  /\ ((0 <= limit)%Z ->
      results = take (Z.to_nat limit) ranked
      /\ length results = Nat.min (Z.to_nat limit) (length kept))
  /\ ((limit < 0)%Z ->
      results = take (length ranked - Z.to_nat (- limit)) ranked
      /\ length results = length kept - Z.to_nat (- limit)
      /\ (length ranked <= Z.to_nat (- limit) -> results = [])).
Proof.
  intros limit kept ranked results.
  assert (Hlen : length ranked = length kept) by apply SortFacts.sortResults_length.
  assert (Hslice : results = slice0 ranked limit) by reflexivity.
  split; [exact Hlen|]. split; intros H.
  - assert (Hprefix : results = take (Z.to_nat limit) ranked).
    { rewrite Hslice. unfold slice0. destruct (Z.ltb_spec limit 0); [lia|].
      destruct (Z.le_ge_cases limit (Z.of_nat (length ranked))).
      - now rewrite Z.min_l.
      - rewrite Z.min_r, Nat2Z.id, !take_ge by lia. reflexivity. }
    split; [exact Hprefix|]. rewrite Hprefix, length_take. lia.
  - assert (Hprefix : results = take (length ranked - Z.to_nat (- limit)) ranked).
    { rewrite Hslice. unfold slice0. destruct (Z.ltb_spec limit 0); [|lia].
      f_equal. lia. }
    split; [exact Hprefix|]. split.
    + rewrite Hprefix, length_take. lia.
    + intros Hshort. rewrite Hprefix.
      now replace (length ranked - Z.to_nat (- limit)) with 0 by lia.
Qed.

Lemma search_respects_maxResults_witness :
  (search collate_letters_first "budget" [full_file]
     {| includeText := None; includeOCR := None; includeMetadata := None;
        sortBy := None; maxResults := Some 3%Z; threshold := None |}
   = take 3 (ranking collate_letters_first "budget" [full_file]
               {| includeText := None; includeOCR := None; includeMetadata := None;
                  sortBy := None; maxResults := Some 3%Z; threshold := None |}))
  /\ (search collate_letters_first "budget" [full_file]
        {| includeText := None; includeOCR := None; includeMetadata := None;
           sortBy := None; maxResults := Some (-2)%Z; threshold := None |}
      = take (length (ranking collate_letters_first "budget" [full_file]
                        {| includeText := None; includeOCR := None;
                           includeMetadata := None; sortBy := None;
                           maxResults := Some (-2)%Z; threshold := None |}) - 2)
          (ranking collate_letters_first "budget" [full_file]
             {| includeText := None; includeOCR := None; includeMetadata := None;
                sortBy := None; maxResults := Some (-2)%Z; threshold := None |})).
Proof.
  split.
  - destruct (search_respects_maxResults collate_letters_first "budget" [full_file]
                {| includeText := None; includeOCR := None; includeMetadata := None;
                   sortBy := None; maxResults := Some 3%Z; threshold := None |})
      as (_ & Hlimit & _).
    apply Hlimit. simpl. lia.
  - destruct (search_respects_maxResults collate_letters_first "budget" [full_file]
                {| includeText := None; includeOCR := None; includeMetadata := None;
                   sortBy := None; maxResults := Some (-2)%Z; threshold := None |})
      as (_ & _ & Hnegative).
    apply Hnegative. simpl. lia.
Defined.

(** X7: every result of search is a candidate of one of the given files,
    carries the id and the name of that file, and has a numeric score
    that is not below the threshold (0.1 when it is left out). *)
Theorem search_results_from_files (localeCompare : string -> string -> Z)
    (query : string) (files : list ExtractedFile) (options : SearchOptions)
    (r : SearchResult) :
  In r (search localeCompare query files options) ->
  (exists file,
      In file files /\ In r (candidates_in_call_order query options file)
      /\ fileId r = id file /\ fileName r = name file)
  /\ exists score,
      relevanceScore r = Num score /\ (default 0.1 (threshold options) <= score)%Q.
Proof.
  intros H. apply ResultFacts.search_collected in H as [Hin Hge]. split.
  - rewrite CollectFacts.collect_flat_map in Hin.
    apply in_flat_map in Hin as (file & Hfile & Hr).
    exists file. destruct (ResultFacts.candidate_fields _ _ _ _ Hr) as (Hid & Hname & _).
    repeat split; assumption.
  - destruct (relevanceScore r) as [|score]; [discriminate|].
    exists score. split; [reflexivity|]. now apply Qle_bool_iff.
Qed.

Lemma search_results_from_files_witness :
  exists score,
    relevanceScore (cell_candidate "f1" "people.xlsx" "Bob" 2 1) = Num score
    /\ (default 0.1 (threshold no_options) <= score)%Q.
Proof.
  apply (search_results_from_files collate_letters_first "Bob" [table_file] no_options
           (cell_candidate "f1" "people.xlsx" "Bob" 2 1)).
  vm_compute. left. reflexivity.
Defined.

(** X8: the results of search are ranked.  With sortBy relevance, or
    left out, their scores are non-increasing; with sortBy name their
    file names are non-decreasing in the collation of the host, when it
    is consistent in sign. *)
Theorem search_ranked (localeCompare : string -> string -> Z)
    (query : string) (files : list ExtractedFile) (options : SearchOptions) :
  (default SortRelevance (sortBy options) = SortRelevance ->
   Sorted score_ge (search localeCompare query files options))
  /\ (sortBy options = Some SortName -> sign_consistent localeCompare ->
      Sorted (name_le localeCompare) (search localeCompare query files options)).
Proof.
  split.
  - intros Hsort. unfold search. rewrite Hsort.
    apply ResultFacts.Sorted_take. simpl.
    apply (SortFacts.sort_sorted _ scored score_ge).
    + intros x y. apply SortFacts.compare_scores_before.
    + intros x y. apply SortFacts.compare_scores_after.
    + apply ResultFacts.filter_scored, SearchFacts.collect_scored.
  - intros Hsort Hlc. unfold search. rewrite Hsort.
    apply ResultFacts.Sorted_take. simpl.
    apply (SortFacts.sort_sorted _ (fun _ => True) (name_le localeCompare)).
    + intros x y _ _ H. now apply SortFacts.compare_names_sign in H.
    + intros x y _ _ H. apply Hlc.
      destruct (Z_lt_le_dec 0 (localeCompare (fileName x) (fileName y))) as [Hlt|Hle];
        [assumption|].
      apply SortFacts.compare_names_sign in Hle. congruence.
    + apply List.Forall_forall. intros; exact I.
Qed.

Lemma search_ranked_witness :
  Sorted score_ge (search collate_letters_first "budget" [full_file; titled_file] no_options).
Proof.
  apply (search_ranked collate_letters_first "budget" [full_file; titled_file] no_options).
  reflexivity.
Defined.

(** X9: a result of match type ocr is returned only when includeOCR is
    on, and a result of match type metadata only when includeMetadata is
    on (each is on when left out). *)
Theorem search_match_types (localeCompare : string -> string -> Z)
    (query : string) (files : list ExtractedFile) (options : SearchOptions)
    (r : SearchResult) :
  In r (search localeCompare query files options) ->
  (matchType r = MatchOcr -> includeOCR options <> Some false)
  /\ (matchType r = MatchMetadata -> includeMetadata options <> Some false).
Proof.
  intros H. apply ResultFacts.search_collected in H as [Hin _].
  rewrite CollectFacts.collect_flat_map in Hin.
  apply in_flat_map in Hin as (file & _ & Hr).
  destruct (ResultFacts.candidate_fields _ _ _ _ Hr) as (_ & _ & Hocr & Hmeta).
  split; intros Ht E; [apply Hocr in Ht|apply Hmeta in Ht]; rewrite E in Ht;
    discriminate.
Qed.

Lemma search_match_types_witness :
  includeMetadata no_options <> Some false.
Proof.
  destruct (search_match_types collate_letters_first "revenue" [titled_file] no_options
              {| fileId := "f2"; fileName := "report.pdf"; content := "Revenue";
                 relevanceScore := Num 0.9; matchType := MatchMetadata;
                 context := "Title: Revenue" |}) as [_ Hmeta].
  - vm_compute. left. reflexivity.
  - apply Hmeta. reflexivity.
Defined.

(** ** Similarity estimator, continued *)

Module JaccardFacts.

Lemma ratio_eq (i u k : nat) :
  0 < u ->
  (inject_Z (Z.of_nat i) / inject_Z (Z.of_nat u) == inject_Z (Z.of_nat k))%Q
  <-> i = k * u.
Proof.
  intros Hu.
  assert (Hnz : ~ (inject_Z (Z.of_nat u) == 0)%Q).
  { change 0%Q with (inject_Z 0). rewrite inject_Z_injective. lia. }
  rewrite <- (Qmult_inj_r _ _ _ Hnz).
  unfold Qdiv. rewrite <- Qmult_assoc, (Qmult_comm (/ _)), Qmult_inv_r by assumption.
  rewrite Qmult_1_r, <- inject_Z_mult, inject_Z_injective. lia.
Qed.

Lemma union_self (X : gset string) : X ∪ X = X.
Proof. apply set_eq. intros x. rewrite elem_of_union. tauto. Qed.

Lemma intersection_self (X : gset string) : X ∩ X = X.
Proof. apply set_eq. intros x. rewrite elem_of_intersection. tauto. Qed.

Lemma value query text :
  let union := term_set query ∪ term_set text in
  let intersection := term_set query ∩ term_set text in
  calculateSemanticSimilarity query text
  = if 0 <? size union
    then Num (inject_Z (Z.of_nat (size intersection)) / inject_Z (Z.of_nat (size union)))
    else Num 0.
Proof. apply SimilarityFacts.similarity_value. Qed.

Lemma symmetric query text :
  calculateSemanticSimilarity query text = calculateSemanticSimilarity text query.
Proof.
  rewrite !value. cbv zeta.
  rewrite (comm_L (∪) (term_set text)), (comm_L (∩) (term_set text)). reflexivity.
Qed.

Lemma zero_iff query text :
  Number.equiv (calculateSemanticSimilarity query text) (Num 0)
  <-> term_set query ∩ term_set text = ∅.
Proof.
  rewrite value. cbv zeta.
  set (Q := term_set query). set (T := term_set text).
  destruct (Nat.ltb_spec 0 (size (Q ∪ T))) as [Hu|Hu].
  - simpl. change 0%Q with (inject_Z (Z.of_nat 0)). rewrite (ratio_eq _ _ 0 Hu).
    simpl. rewrite size_empty_iff. now unfold_leibniz.
  - simpl. split; [intros _|reflexivity].
    assert (HU : Q ∪ T = ∅) by (apply leibniz_equiv, size_empty_iff; lia).
    apply leibniz_equiv. intros x. rewrite elem_of_intersection.
    assert (x ∉ Q ∪ T) by (rewrite HU; apply not_elem_of_empty).
    rewrite elem_of_union in *. split; [tauto|]. intros Hx.
    now apply not_elem_of_empty in Hx.
Qed.

Lemma one_iff query text :
  Number.equiv (calculateSemanticSimilarity query text) (Num 1)
  <-> term_set query = term_set text /\ term_set query <> ∅.
Proof.
  rewrite value. cbv zeta.
  set (Q := term_set query). set (T := term_set text).
  assert (Hsub : Q ∩ T ⊆ Q ∪ T).
  { etrans; [apply intersection_subseteq_l|apply union_subseteq_l]. }
  destruct (Nat.ltb_spec 0 (size (Q ∪ T))) as [Hu|Hu].
  - simpl. change 1%Q with (inject_Z (Z.of_nat 1)). rewrite (ratio_eq _ _ 1 Hu).
    rewrite Nat.mul_1_l. split.
    + intros Hsize.
      assert (HIU : Q ∩ T = Q ∪ T) by (apply set_subseteq_size_eq; [assumption|lia]).
      assert (HQT : Q = T).
      { apply leibniz_equiv. intros x. split; intros Hx.
        - assert (Hx' : x ∈ Q ∩ T) by (rewrite HIU; now apply elem_of_union_l).
          now apply elem_of_intersection in Hx'.
        - assert (Hx' : x ∈ Q ∩ T) by (rewrite HIU; now apply elem_of_union_r).
          now apply elem_of_intersection in Hx'. }
      split; [assumption|]. intros HQ. rewrite <- HQT, union_self, HQ, size_empty in Hu.
      lia.
    + intros [HQT _]. rewrite <- HQT. now rewrite union_self, intersection_self.
  - simpl. split.
    + intros H. unfold Qeq in H. simpl in H. lia.
    + intros [HQT HQ]. exfalso. apply HQ.
      assert (HU : Q ∪ T = ∅) by (apply leibniz_equiv, size_empty_iff; lia).
      rewrite <- HQT, union_self in HU. assumption.
Qed.

End JaccardFacts.

(** X10: the similarity estimator is symmetric: the similarity of a query
    to a text is the similarity of the text to the query. *)
Theorem calculateSemanticSimilarity_symmetric (query text : string) :
  calculateSemanticSimilarity query text = calculateSemanticSimilarity text query.
Proof. apply JaccardFacts.symmetric. Qed.

(** X11: the similarity is 0 exactly when the query and the text share no
    normalized term, and 1 exactly when they have the same set of
    normalized terms and that set is not empty. *)
Theorem calculateSemanticSimilarity_extremes (query text : string) :
  (Number.equiv (calculateSemanticSimilarity query text) (Num 0)
   <-> term_set query ∩ term_set text = ∅)
  /\ (Number.equiv (calculateSemanticSimilarity query text) (Num 1)
      <-> term_set query = term_set text /\ term_set query <> ∅).
Proof. split; [apply JaccardFacts.zero_iff|apply JaccardFacts.one_iff]. Qed.

(** ** Tokenizer, continued *)

Module NormalFacts.

Lemma term_char_kept c :
  is_term_char c = true -> blank_nonword c = c /\ CodeUnit.is_space c = false.
Proof. destruct c as [[] [] [] [] [] [] [] []]; vm_compute; intuition congruence. Qed.

Lemma lower_lower_unit c :
  CodeUnit.toLowerCase (CodeUnit.toLowerCase c) = CodeUnit.toLowerCase c.
Proof. destruct c as [[] [] [] [] [] [] [] []]; reflexivity. Qed.

Lemma toLowerCase_idempotent s : Str.toLowerCase (Str.toLowerCase s) = Str.toLowerCase s.
Proof.
  unfold Str.toLowerCase. induction s as [|c s IH]; simpl; [reflexivity|].
  now rewrite lower_lower_unit, IH.
Qed.

Lemma blank_term s : Str.forallb is_term_char s = true -> Str.map blank_nonword s = s.
Proof.
  induction s as [|c s IH]; simpl; [reflexivity|].
  intros H. apply andb_prop in H as [Hc Hs].
  destruct (term_char_kept c Hc) as [-> _]. now rewrite IH.
Qed.

Lemma split_term s : Str.forallb is_term_char s = true -> split_spaces s = [s].
Proof.
  induction s as [|c s IH]; simpl; [reflexivity|].
  intros H. apply andb_prop in H as [Hc Hs].
  destruct (term_char_kept c Hc) as [_ ->]. now rewrite IH.
Qed.

Lemma term_fixed query term :
  In term (preprocessQuery query) -> preprocessQuery term = [term].
Proof.
  intros Hin. pose proof (TokenizerFacts.terms_chars query) as H.
  rewrite List.Forall_forall in H. destruct (H term Hin) as [Hc Hl].
  unfold preprocessQuery.
  rewrite (TokenizerFacts.terms_lowered term Hc), (blank_term term Hc), (split_term term Hc).
  simpl. apply Nat.ltb_lt in Hl. now rewrite Hl.
Qed.

Lemma preprocessQuery_lower query :
  preprocessQuery (Str.toLowerCase query) = preprocessQuery query.
Proof. unfold preprocessQuery. now rewrite toLowerCase_idempotent. Qed.

Lemma searchInText_lower query text fileId' fileName' matchType' :
  searchInText (Str.toLowerCase query) text fileId' fileName' matchType'
  = searchInText query text fileId' fileName' matchType'.
Proof. unfold searchInText. now rewrite preprocessQuery_lower. Qed.

Lemma candidates_lower query options file :
  candidates_in_call_order (Str.toLowerCase query) options file
  = candidates_in_call_order query options file.
Proof.
  unfold candidates_in_call_order, text_candidates, ocr_candidates, metadata_candidates,
    table_candidates, summary_candidates, keyword_candidates.
  rewrite !searchInText_lower.
  assert (Hocr : forall l : list ExtractedImage,
             flat_map
               (fun image =>
                  match Str.present (ocrText image) with
                  | Some ocrText =>
                      searchInText (Str.toLowerCase query) ocrText (id file) (name file)
                        MatchOcr
                  | None => []
                  end) l
             = flat_map
                 (fun image =>
                    match Str.present (ocrText image) with
                    | Some ocrText =>
                        searchInText query ocrText (id file) (name file) MatchOcr
                    | None => []
                    end) l).
  { intros l. apply flat_map_ext. intros image.
    destruct (Str.present (ocrText image)); [apply searchInText_lower|reflexivity]. }
  rewrite Hocr.
  assert (Hmeta : searchInMetadata (Str.toLowerCase query) file = searchInMetadata query file).
  { unfold searchInMetadata. now rewrite toLowerCase_idempotent. }
  rewrite Hmeta.
  assert (Htab : forall l : list ExtractedTable,
             flat_map
               (fun table =>
                  searchInTable (Str.toLowerCase query) table (id file) (name file)) l
             = flat_map
                 (fun table => searchInTable query table (id file) (name file)) l).
  { intros l. apply flat_map_ext. intros table. unfold searchInTable.
    now rewrite toLowerCase_idempotent. }
  rewrite Htab.
  assert (Hkey : forall keywords,
             searchInKeywords (Str.toLowerCase query) keywords (id file) (name file)
             = searchInKeywords query keywords (id file) (name file)).
  { intros keywords. unfold searchInKeywords. now rewrite toLowerCase_idempotent. }
  destruct (Str.present (summary (extractedContent file)));
    destruct (keywords (extractedContent file));
    rewrite ?searchInText_lower, ?Hkey; reflexivity.
Qed.

End NormalFacts.

(** X12: normalization is stable: every term that the tokenizer returns
    is normalized to itself alone, and lowering the input first does
    not change the terms. *)
Theorem preprocessQuery_stable (query : string) :
  (forall term, In term (preprocessQuery query) -> preprocessQuery term = [term])
  /\ preprocessQuery (Str.toLowerCase query) = preprocessQuery query.
Proof.
  split; [intros term; apply NormalFacts.term_fixed|apply NormalFacts.preprocessQuery_lower].
Qed.

Lemma preprocessQuery_stable_witness : preprocessQuery "net_income" = ["net_income"].
Proof.
  destruct (preprocessQuery_stable "Net_Income, Q1") as [Hfixed _].
  apply Hfixed. vm_compute. left. reflexivity.
Defined.

(** X13: search does not tell the case of the letters of the query: the
    lowered query gets the same results as the query itself. *)
Theorem search_query_case (localeCompare : string -> string -> Z)
    (query : string) (files : list ExtractedFile) (options : SearchOptions) :
  search localeCompare (Str.toLowerCase query) files options
  = search localeCompare query files options.
Proof.
  unfold search. rewrite !CollectFacts.collect_flat_map.
  rewrite (flat_map_ext _ _ (NormalFacts.candidates_lower query options)). reflexivity.
Qed.

(** ** Semantic search *)

Module SemanticFacts.

Lemma similarity_range query text :
  exists x, calculateSemanticSimilarity query text = Num x /\ (0 <= x <= 1)%Q.
Proof.
  rewrite JaccardFacts.value. cbv zeta.
  destruct (Nat.ltb_spec 0 (size (term_set query ∪ term_set text))) as [H|H].
  - eexists. split; [reflexivity|]. apply NumberFacts.ratio_le_1; [|assumption].
    apply subseteq_size.
    etrans; [apply intersection_subseteq_l|apply union_subseteq_l].
  - exists 0%Q. split; [reflexivity|lra].
Qed.

(** A similarity above a positive threshold is a number up to one, of a
    query and a text that share a term. *)
Lemma above_threshold query text (t : Q) :
  (0 <= t)%Q ->
  Number.gtb (calculateSemanticSimilarity query text) (Num t) = true ->
  (exists x, calculateSemanticSimilarity query text = Num x /\ (t < x <= 1)%Q)
  /\ term_set query ∩ term_set text <> ∅.
Proof.
  intros Ht H. split.
  - destruct (similarity_range query text) as (x & Hx & Hrange).
    rewrite Hx in H. simpl in H. exists x. split; [assumption|]. split; [|tauto].
    apply Qnot_le_lt. intros Hle. apply Qle_bool_iff in Hle. rewrite Hle in H. discriminate.
  - intros Hdisjoint. apply JaccardFacts.zero_iff in Hdisjoint.
    destruct (calculateSemanticSimilarity query text) as [|x]; [discriminate|].
    simpl in *. assert (Qle_bool x t = true) by (apply Qle_bool_iff; lra).
    rewrite H0 in H. discriminate.
Qed.

(** What one file adds to the results of [semanticSearch]. *)
Lemma semantic_file_adds query results file r :
  In r (semantic_file query results file) ->
  In r results
  \/ (fileId r = id file /\ fileName r = name file /\ matchType r = MatchText
      /\ exists field,
          (field = text (extractedContent file)
           \/ summary (extractedContent file) = Some field)
          /\ relevanceScore r = calculateSemanticSimilarity query field
          /\ Number.gtb (relevanceScore r) (Num 0.1) = true).
Proof.
  unfold semantic_file, push. intros H.
  assert (Hsum : forall acc,
             In r (match Str.present (summary (extractedContent file)) with
                   | Some summary =>
                       if Number.gtb (calculateSemanticSimilarity query summary) (Num 0.2)
                       then acc ++ [{| fileId := id file; fileName := name file;
                                       content := summary;
                                       relevanceScore :=
                                         calculateSemanticSimilarity query summary;
                                       matchType := MatchText; context := summary |}]
                       else acc
                   | None => acc
                   end) ->
             In r acc
             \/ (fileId r = id file /\ fileName r = name file /\ matchType r = MatchText
                 /\ exists field,
                     (field = text (extractedContent file)
                      \/ summary (extractedContent file) = Some field)
                     /\ relevanceScore r = calculateSemanticSimilarity query field
                     /\ Number.gtb (relevanceScore r) (Num 0.1) = true)).
  { intros acc Hr.
    destruct (Str.present (summary (extractedContent file))) as [s|] eqn:Es; [|now left].
    apply StrFacts.present_Some in Es as [Es _].
    destruct (Number.gtb (calculateSemanticSimilarity query s) (Num 0.2)) eqn:Eg;
      [|now left].
    apply in_app_or in Hr as [Hr|[<-|[]]]; [now left|]. right. simpl.
    repeat split. exists s. repeat split; [now right|].
    destruct (calculateSemanticSimilarity query s) as [|x]; [discriminate|].
    simpl in *. apply negb_true_iff. apply negb_true_iff in Eg.
    destruct (Qle_bool x 0.1) eqn:E; [|reflexivity].
    apply Qle_bool_iff in E.
    assert (Qle_bool x 0.2 = true) by (apply Qle_bool_iff; lra). congruence. }
  destruct (Str.truthy (text (extractedContent file))); [|now apply Hsum].
  destruct (Number.gtb (calculateSemanticSimilarity query (text (extractedContent file)))
              (Num 0.1)) eqn:Eg; [|now apply Hsum].
  apply Hsum in H as [H|H]; [|now right].
  apply in_app_or in H as [H|[<-|[]]]; [now left|]. right. simpl.
  repeat split. exists (text (extractedContent file)). repeat split; [now left|assumption].
Qed.

Lemma semantic_file_length query results file :
  length (semantic_file query results file) <= length results + 2.
Proof.
  unfold semantic_file, push.
  destruct (Str.truthy _); destruct (Str.present _);
    repeat destruct (Number.gtb _ _); rewrite ?length_app; simpl; lia.
Qed.

Lemma collected_length query files init :
  length (fold_left (semantic_file query) files init) <= length init + 2 * length files.
Proof.
  revert init. induction files as [|file files IH]; intros init; simpl; [lia|].
  etrans; [apply IH|]. pose proof (semantic_file_length query init file). lia.
Qed.

Lemma collected_from query files init r :
  In r (fold_left (semantic_file query) files init) ->
  In r init
  \/ exists file,
      In file files
      /\ fileId r = id file /\ fileName r = name file /\ matchType r = MatchText
      /\ exists field,
          (field = text (extractedContent file)
           \/ summary (extractedContent file) = Some field)
          /\ relevanceScore r = calculateSemanticSimilarity query field
          /\ Number.gtb (relevanceScore r) (Num 0.1) = true.
Proof.
  revert init. induction files as [|file files IH]; intros init; simpl; [now left|].
  intros H. apply IH in H as [H|(f & Hf & H)].
  - apply semantic_file_adds in H as [H|H]; [now left|].
    right. exists file. split; [now left|assumption].
  - right. exists f. split; [now right|assumption].
Qed.

(** A file that shares no term with the query adds nothing. *)
Lemma semantic_file_disjoint query results file :
  term_set query ∩ term_set (text (extractedContent file)) = ∅ ->
  (forall s, summary (extractedContent file) = Some s ->
             term_set query ∩ term_set s = ∅) ->
  semantic_file query results file = results.
Proof.
  intros Htext Hsummary. unfold semantic_file.
  assert (Hlow : forall field t,
             term_set query ∩ term_set field = ∅ -> (0 <= t)%Q ->
             Number.gtb (calculateSemanticSimilarity query field) (Num t) = false).
  { intros field t Hd Ht.
    destruct (Number.gtb _ _) eqn:E; [|reflexivity].
    now apply above_threshold in E as [_ E]. }
  rewrite (Hlow _ 0.1%Q Htext) by lra.
  destruct (Str.present (summary (extractedContent file))) as [s|] eqn:Es.
  - apply StrFacts.present_Some in Es as [Es _].
    rewrite (Hlow s 0.2%Q (Hsummary s Es)) by lra. now destruct (Str.truthy _).
  - now destruct (Str.truthy _).
Qed.

Lemma collected_scored query files r :
  In r (fold_left (semantic_file query) files []) -> scored r.
Proof.
  intros H. apply collected_from in H as [[]|(file & _ & _ & _ & _ & field & _ & _ & H)].
  unfold scored. now destruct (relevanceScore r).
Qed.

(** What a file adds does not depend on the results before it. *)
Lemma semantic_file_app query results file :
  semantic_file query results file = results ++ semantic_file query [] file.
Proof.
  unfold semantic_file, push.
  destruct (Str.truthy _); destruct (Str.present _);
    repeat destruct (Number.gtb _ _); simpl; rewrite ?app_nil_r, <- ?app_assoc;
    reflexivity.
Qed.

Lemma collected_flat_map query files init :
  fold_left (semantic_file query) files init
  = init ++ flat_map (semantic_file query []) files.
Proof.
  revert init. induction files as [|file files IH]; intros init; simpl.
  - now rewrite app_nil_r.
  - rewrite IH, (semantic_file_app query init file), <- app_assoc. reflexivity.
Qed.

Lemma semantic_file_own query file r :
  In r (semantic_file query [] file) -> fileId r = id file.
Proof. intros H. apply semantic_file_adds in H as [[]|(H & _)]. exact H. Qed.

Lemma results_of_others fileId' (results : list SearchResult) :
  (forall r, In r results -> fileId r <> fileId') -> results_of fileId' results = [].
Proof.
  induction results as [|r results IH]; intros H; [reflexivity|].
  unfold results_of in *. simpl. destruct (String.eqb_spec (fileId r) fileId') as [E|E].
  - exfalso. apply (H r); [now left|assumption].
  - apply IH. intros r' Hr'. apply H. now right.
Qed.

Lemma results_of_app fileId' (a b : list SearchResult) :
  results_of fileId' (a ++ b) = results_of fileId' a ++ results_of fileId' b.
Proof. apply List.filter_app. Qed.

Lemma results_of_file query file fileId' :
  length (results_of fileId' (semantic_file query [] file))
  <= if String.eqb (id file) fileId' then 2 else 0.
Proof.
  destruct (String.eqb_spec (id file) fileId') as [E|E].
  - etrans; [apply List.filter_length_le|].
    pose proof (semantic_file_length query [] file) as H. simpl in H. exact H.
  - rewrite results_of_others; [reflexivity|].
    intros r Hr. now rewrite (semantic_file_own _ _ _ Hr).
Qed.

Lemma results_of_collected query files fileId' :
  length (results_of fileId' (flat_map (semantic_file query []) files))
  <= 2 * length (List.filter (fun file => String.eqb (id file) fileId') files).
Proof.
  induction files as [|file files IH]; simpl; [lia|].
  rewrite results_of_app, length_app. pose proof (results_of_file query file fileId').
  destruct (String.eqb (id file) fileId'); simpl; lia.
Qed.

Lemma results_of_take fileId' n (results : list SearchResult) :
  length (results_of fileId' (take n results)) <= length (results_of fileId' results).
Proof.
  rewrite <- (take_drop n results) at 2. rewrite results_of_app, length_app. lia.
Qed.

Lemma results_of_perm fileId' (a b : list SearchResult) :
  Permutation a b -> length (results_of fileId' a) = length (results_of fileId' b).
Proof.
  unfold results_of. induction 1; simpl; repeat destruct (String.eqb _ _); simpl; lia.
Qed.

(** With distinct ids, an id names at most one file. *)
Lemma files_of_id (files : list ExtractedFile) fileId' :
  NoDup (List.map id files) ->
  length (List.filter (fun file => String.eqb (id file) fileId') files) <= 1.
Proof.
  induction files as [|file files IH]; simpl; intros Hnd; [lia|].
  apply NoDup_cons in Hnd as [Hfresh Hnd].
  destruct (String.eqb_spec (id file) fileId') as [E|E]; [|now apply IH].
  simpl. destruct (List.filter _ files) as [|other rest] eqn:Efilter; [simpl; lia|].
  exfalso. apply Hfresh.
  assert (Hother : In other (List.filter (fun file => String.eqb (id file) fileId') files))
    by (rewrite Efilter; now left).
  apply filter_In in Hother as [Hin Hid]. apply String.eqb_eq in Hid.
  apply list_elem_of_In. rewrite E, <- Hid. now apply in_map.
Qed.

(** The results of one id are at most twice the files of that id. *)
Lemma results_of_semanticSearch localeCompare query files maxResults' fileId' :
  length (results_of fileId' (semanticSearch localeCompare query files maxResults'))
  <= 2 * length (List.filter (fun file => String.eqb (id file) fileId') files).
Proof.
  unfold semanticSearch, slice0. etrans; [apply results_of_take|].
  rewrite <- (results_of_perm _ _ _
                (SortFacts.sortResults_perm localeCompare _ SortRelevance)).
  rewrite collected_flat_map. apply results_of_collected.
Qed.

Lemma shares_term_false query file :
  shares_term query file = false ->
  term_set query ∩ term_set (text (extractedContent file)) = ∅
  /\ forall s, summary (extractedContent file) = Some s ->
               term_set query ∩ term_set s = ∅.
Proof.
  unfold shares_term. intros H. apply orb_false_iff in H as [Ht Hs].
  apply negb_false_iff, bool_decide_eq_true in Ht. split; [assumption|].
  intros s Es. rewrite Es in Hs. now apply negb_false_iff, bool_decide_eq_true in Hs.
Qed.

(** The files that share no term with the query can be left out. *)
Lemma collected_sharing query files init :
  fold_left (semantic_file query) files init
  = fold_left (semantic_file query) (List.filter (shares_term query) files) init.
Proof.
  revert init. induction files as [|file files IH]; intros init; simpl; [reflexivity|].
  destruct (shares_term query file) eqn:E; simpl; [apply IH|].
  apply shares_term_false in E as [Ht Hs].
  rewrite semantic_file_disjoint by assumption. apply IH.
Qed.

End SemanticFacts.

(** X14: every result of semanticSearch comes from the full text or from
    the summary of one of the given files: it carries the id and the
    name of that file, has match type text, and its score is the
    similarity of the query to that field, a number above 0.1 and at
    most 1; the query and the field share a normalized term. *)
Theorem semanticSearch_results (localeCompare : string -> string -> Z)
    (query : string) (files : list ExtractedFile) (maxResults' : option Z)
    (r : SearchResult) :
  In r (semanticSearch localeCompare query files maxResults') ->
  exists file field score,
    In file files
    /\ fileId r = id file /\ fileName r = name file /\ matchType r = MatchText
    /\ (field = text (extractedContent file)
        \/ summary (extractedContent file) = Some field)
    /\ relevanceScore r = calculateSemanticSimilarity query field
    /\ relevanceScore r = Num score /\ (0.1 < score <= 1)%Q
    /\ term_set query ∩ term_set field <> ∅.
Proof.
  unfold semanticSearch. intros H. apply ResultFacts.In_slice0 in H.
  apply (Permutation_in _ (Permutation_sym (SortFacts.sortResults_perm _ _ _))) in H.
  apply SemanticFacts.collected_from in H
    as [[]|(file & Hfile & Hid & Hname & Htype & field & Hfield & Hscore & Hgt)].
  rewrite Hscore in Hgt.
  destruct (SemanticFacts.above_threshold query field 0.1%Q) as ((x & Hx & Hrange) & Hshare);
    [lra|assumption|].
  exists file, field, x. repeat split; try assumption; try tauto.
  now rewrite Hscore.
Qed.

Lemma semanticSearch_results_witness :
  exists file field score,
    In file [titled_file]
    /\ (field = text (extractedContent file)
        \/ summary (extractedContent file) = Some field)
    /\ Num (inject_Z 2 / inject_Z 3) = calculateSemanticSimilarity "revenue about" field
    /\ (0.1 < score <= 1)%Q.
Proof.
  destruct (semanticSearch_results collate_letters_first "revenue about" [titled_file] None
              {| fileId := "f2"; fileName := "report.pdf"; content := "All about revenue";
                 relevanceScore := Num (inject_Z 2 / inject_Z 3); matchType := MatchText;
                 context := "All about revenue" |})
    as (file & field & score & Hfile & _ & _ & _ & Hfield & Hscore & _ & Hrange & _).
  - vm_compute. left. reflexivity.
  - exists file, field, score. repeat split; tauto.
Defined.

(** X15: the results of semanticSearch are ranked by non-increasing
    score.  There are at most two per file: the results that carry an id
    are at most twice as many as the files with that id, so at most two
    when the ids of the files are distinct, and at most twice the
    number of files in all.  There are at most maxResults when
    maxResults is not negative (20 when it is left out). *)
Theorem semanticSearch_ranked (localeCompare : string -> string -> Z)
    (query : string) (files : list ExtractedFile) (maxResults' : option Z) :
  Sorted score_ge (semanticSearch localeCompare query files maxResults')
  /\ (forall fileId',
        length (results_of fileId'
                  (semanticSearch localeCompare query files maxResults'))
        <= 2 * length (List.filter (fun file => String.eqb (id file) fileId') files))
  /\ (NoDup (List.map id files) ->
      forall fileId',
        length (results_of fileId'
                  (semanticSearch localeCompare query files maxResults')) <= 2)
  /\ length (semanticSearch localeCompare query files maxResults') <= 2 * length files
  /\ ((0 <= default 20 maxResults')%Z ->
      length (semanticSearch localeCompare query files maxResults')
      <= Z.to_nat (default 20%Z maxResults')).
Proof.
  split; [|split; [|split; [|split]]].
  - unfold semanticSearch. apply ResultFacts.Sorted_take. simpl.
    apply (SortFacts.sort_sorted _ scored score_ge).
    + intros x y. apply SortFacts.compare_scores_before.
    + intros x y. apply SortFacts.compare_scores_after.
    + apply List.Forall_forall. intros r. apply SemanticFacts.collected_scored.
  - intros fileId'. apply SemanticFacts.results_of_semanticSearch.
  - intros Hdistinct fileId'.
    etrans; [apply SemanticFacts.results_of_semanticSearch|].
    pose proof (SemanticFacts.files_of_id files fileId' Hdistinct). lia.
  - unfold semanticSearch.
    rewrite ResultFacts.slice0_length, SortFacts.sortResults_length.
    pose proof (SemanticFacts.collected_length query files []) as H. simpl in H.
    destruct (_ <? _)%Z; lia.
  - intros H. unfold semanticSearch. rewrite ResultFacts.slice0_length.
    destruct (Z.ltb_spec (default 20%Z maxResults') 0); lia.
Qed.

Lemma semanticSearch_ranked_witness :
  length (results_of "f2"
            (semanticSearch collate_letters_first "revenue about"
               [full_file; titled_file] (Some 1%Z))) <= 2
  /\ length (semanticSearch collate_letters_first "revenue about"
               [full_file; titled_file] (Some 1%Z)) <= 1.
Proof.
  destruct (semanticSearch_ranked collate_letters_first "revenue about"
              [full_file; titled_file] (Some 1%Z)) as (_ & _ & Hfile & _ & Hlimit).
  split.
  - apply Hfile. apply (bool_decide_unpack _). vm_compute. exact I.
  - apply Hlimit. simpl. lia.
Defined.

(** X16: a file whose full text and summary share no normalized term
    with the query adds nothing to semanticSearch: the results pushed
    before it are unchanged after it, and semanticSearch returns the
    same results with such files left out of the collection.  So there
    is no result at all when no file shares a term with the query, in
    particular for a query without any term of more than two
    characters, such as the empty query. *)
Theorem semanticSearch_needs_shared_term (localeCompare : string -> string -> Z)
    (query : string) (files : list ExtractedFile) (maxResults' : option Z) :
  (forall file results,
      shares_term query file = false -> semantic_file query results file = results)
  /\ semanticSearch localeCompare query files maxResults'
     = semanticSearch localeCompare query (List.filter (shares_term query) files)
         maxResults'
  /\ (Forall
        (fun file =>
           term_set query ∩ term_set (text (extractedContent file)) = ∅
           /\ forall s, summary (extractedContent file) = Some s ->
                        term_set query ∩ term_set s = ∅)
        files ->
      semanticSearch localeCompare query files maxResults' = [])
  /\ (preprocessQuery query = [] ->
      semanticSearch localeCompare query files maxResults' = []).
Proof.
  assert (Hnone : Forall
                    (fun file =>
                       term_set query ∩ term_set (text (extractedContent file)) = ∅
                       /\ forall s, summary (extractedContent file) = Some s ->
                                    term_set query ∩ term_set s = ∅)
                    files ->
                  semanticSearch localeCompare query files maxResults' = []).
  { intros H. unfold semanticSearch.
    assert (Hfold : forall init, fold_left (semantic_file query) files init = init).
    { induction H as [|file files [Ht Hs] _ IH]; intros init; simpl; [reflexivity|].
      now rewrite SemanticFacts.semantic_file_disjoint, IH. }
    rewrite Hfold. simpl. apply slice0_nil. }
  split; [|split; [|split; [exact Hnone|]]].
  - intros file results Hshare.
    apply SemanticFacts.shares_term_false in Hshare as [Ht Hs].
    now apply SemanticFacts.semantic_file_disjoint.
  - unfold semanticSearch. now rewrite SemanticFacts.collected_sharing.
  - intros Hempty. apply Hnone. apply List.Forall_forall. intros file _.
    unfold term_set. rewrite Hempty. simpl.
    split; [|intros s _]; apply set_eq; intros x;
      rewrite elem_of_intersection; split; [tauto| |tauto|];
      intros Hx; now apply not_elem_of_empty in Hx.
Qed.

Lemma semanticSearch_needs_shared_term_witness :
  semanticSearch collate_letters_first "revenue about" [full_file; titled_file; table_file]
    None
  = semanticSearch collate_letters_first "revenue about"
      (List.filter (shares_term "revenue about") [full_file; titled_file; table_file])
      None
  /\ semanticSearch collate_letters_first "" [full_file; titled_file] None = [].
Proof.
  split.
  - destruct (semanticSearch_needs_shared_term collate_letters_first "revenue about"
                [full_file; titled_file; table_file] None) as (_ & Hsharing & _).
    exact Hsharing.
  - destruct (semanticSearch_needs_shared_term collate_letters_first ""
                [full_file; titled_file] None) as (_ & _ & _ & Hempty).
    apply Hempty. reflexivity.
Defined.

(** ** Advanced search *)

Module AdvancedFacts.

Lemma filter_and {A : Type} (f g : A -> bool) (l : list A) :
  List.filter g (List.filter f l) = List.filter (fun x => f x && g x) l.
Proof.
  induction l as [|x l IH]; simpl; [reflexivity|].
  destruct (f x); simpl; [destruct (g x)|]; now rewrite IH.
Qed.

Lemma filter_all {A : Type} (l : list A) : List.filter (fun _ => true) l = l.
Proof. induction l; simpl; congruence. Qed.

(** The three filters of [advancedSearch], one after the other, keep the
    files that meet the criteria. *)
Lemma filters criteria (files : list StoredFile) :
  let results :=
    match fileTypes criteria with
    | Some fileTypes =>
        if 0 <? length fileTypes
        then List.filter (fun file => includes_string fileTypes (type (stored file))) files
        else files
    | None => files
    end in
  let results :=
    match dateRange criteria with
    | Some dateRange =>
        List.filter
          (fun file =>
             (range_start dateRange <=? uploadDate file)%Z
             && (uploadDate file <=? range_end dateRange)%Z)
          results
    | None => results
    end in
  match sizeRange criteria with
  | Some sizeRange =>
      List.filter
        (fun file =>
           Qle_bool (range_min sizeRange) (file_size file)
           && Qle_bool (file_size file) (range_max sizeRange))
        results
  | None => results
  end
  = List.filter (meets_criteria criteria) files.
Proof.
  cbv zeta. unfold meets_criteria.
  set (byType := fun file : StoredFile =>
                   match fileTypes criteria with
                   | Some (t :: ts) => includes_string (t :: ts) (type (stored file))
                   | _ => true
                   end).
  assert (Htype : match fileTypes criteria with
                  | Some fileTypes =>
                      if 0 <? length fileTypes
                      then List.filter
                             (fun file => includes_string fileTypes (type (stored file)))
                             files
                      else files
                  | None => files
                  end = List.filter byType files).
  { unfold byType. destruct (fileTypes criteria) as [[|t ts]|]; simpl;
      rewrite ?filter_all; reflexivity. }
  rewrite Htype.
  destruct (dateRange criteria) as [dates|]; destruct (sizeRange criteria) as [sizes|];
    rewrite ?filter_and; apply filter_ext; intros file; unfold byType;
    destruct (fileTypes criteria) as [[|t ts]|]; cbv beta iota;
    rewrite ?andb_assoc, ?andb_true_r; reflexivity.
Qed.

End AdvancedFacts.

(** X17: without a query (none, or the empty string) advancedSearch
    lists the files that meet the criteria, in their order, one result
    per file: the type is one of a non-empty list of file types (an
    empty list filters nothing), the upload date and the size lie in the
    ranges, bounds included.  Each result has score 1 and match type
    text; its content is the summary, or the first 200 units of the text
    when there is no summary. *)
Theorem advancedSearch_lists_files (localeCompare : string -> string -> Z)
    (criteria : AdvancedSearchCriteria) (files : list StoredFile) :
  Str.present (criteria_query criteria) = None ->
  advancedSearch localeCompare criteria files
  = List.map
      (fun file =>
         {| fileId := id (stored file); fileName := name (stored file);
            content :=
              match Str.present (summary (extractedContent (stored file))) with
              | Some summary => summary
              | None => Str.substring (text (extractedContent (stored file))) 0 200
              end;
            relevanceScore := Num 1; matchType := MatchText;
            context :=
              match Str.present (summary (extractedContent (stored file))) with
              | Some summary => summary
              | None => "No summary available"
              end |})
      (List.filter (meets_criteria criteria) files).
Proof.
  intros Hquery. unfold advancedSearch. rewrite Hquery.
  rewrite (AdvancedFacts.filters criteria files).
  apply map_ext. intros file.
  destruct (Str.present (summary (extractedContent (stored file)))); reflexivity.
Qed.

Lemma advancedSearch_lists_files_witness :
  List.map fileId (advancedSearch collate_letters_first (recent_pdf (Some "")) stored_files)
  = ["f3"].
Proof.
  rewrite (advancedSearch_lists_files collate_letters_first (recent_pdf (Some ""))
             stored_files); reflexivity.
Defined.

(** X18: with a query that is not empty, advancedSearch is search over
    the files that meet the criteria, with the options of the criteria
    (the defaults when there are none); so every result names a given
    file that meets the criteria. *)
Theorem advancedSearch_searches_filtered (localeCompare : string -> string -> Z)
    (criteria : AdvancedSearchCriteria) (files : list StoredFile) (query : string) :
  criteria_query criteria = Some query -> query <> "" ->
  advancedSearch localeCompare criteria files
  = search localeCompare query
      (List.map stored (List.filter (meets_criteria criteria) files))
      (default no_options (searchOptions criteria))
  /\ forall r,
      In r (advancedSearch localeCompare criteria files) ->
      exists file,
        In file files /\ meets_criteria criteria file = true
        /\ fileId r = id (stored file) /\ fileName r = name (stored file).
Proof.
  intros Hquery Hne.
  assert (Heq : advancedSearch localeCompare criteria files
                = search localeCompare query
                    (List.map stored (List.filter (meets_criteria criteria) files))
                    (default no_options (searchOptions criteria))).
  { unfold advancedSearch. rewrite Hquery. simpl.
    destruct query; [congruence|]. simpl.
    now rewrite (AdvancedFacts.filters criteria files). }
  split; [exact Heq|]. intros r Hr. rewrite Heq in Hr.
  apply ResultFacts.search_collected in Hr as [Hr _].
  rewrite CollectFacts.collect_flat_map in Hr.
  apply in_flat_map in Hr as (f & Hf & Hr).
  apply in_map_iff in Hf as (file & <- & Hfile). apply filter_In in Hfile as [Hin Hmeets].
  destruct (ResultFacts.candidate_fields _ _ _ _ Hr) as (Hid & Hname & _).
  exists file. repeat split; assumption.
Qed.

Lemma advancedSearch_searches_filtered_witness :
  advancedSearch collate_letters_first (recent_pdf (Some "budget")) stored_files
  = search collate_letters_first "budget"
      (List.map stored (List.filter (meets_criteria (recent_pdf (Some "budget"))) stored_files))
      (default no_options (searchOptions (recent_pdf (Some "budget")))).
Proof.
  apply (advancedSearch_searches_filtered collate_letters_first
           (recent_pdf (Some "budget")) stored_files "budget").
  - reflexivity.
  - discriminate.
Defined.

(** ** Facets *)

Module FacetFacts.

Lemma occurrences_cons key x keys :
  occurrences key (x :: keys)
  = (if String.eqb key x then 1 else 0) + occurrences key keys.
Proof. unfold occurrences. simpl. now destruct (String.eqb key x). Qed.

Lemma occurrences_app key l1 l2 :
  occurrences key (l1 ++ l2) = occurrences key l1 + occurrences key l2.
Proof. unfold occurrences. now rewrite List.filter_app, length_app. Qed.

Lemma occurrences_perm key l1 l2 :
  Permutation l1 l2 -> occurrences key l1 = occurrences key l2.
Proof.
  induction 1 as [|x l1 l2 _ IH|x y l|l1 l2 l3 _ IH1 _ IH2];
    rewrite ?occurrences_cons; lia.
Qed.

Lemma occurrences_total keys :
  forall key, occurrences key keys <= length keys.
Proof.
  intros key. induction keys as [|x keys IH]; [unfold occurrences; simpl; lia|].
  rewrite occurrences_cons. simpl. destruct (String.eqb key x); lia.
Qed.

(** Counting keys one after the other into a map. *)
Lemma count_lookup keys (m : gmap string nat) key :
  fold_left increment keys m !! key
  = if occurrences key keys =? 0 then m !! key
    else Some (default 0 (m !! key) + occurrences key keys).
Proof.
  revert m. induction keys as [|x keys IH]; intros m; [reflexivity|].
  simpl fold_left. rewrite IH, occurrences_cons. unfold increment.
  destruct (String.eqb_spec key x) as [->|Hne].
  - rewrite lookup_insert_eq. generalize (default 0 (m !! x)). intros d.
    change (default 0 (Some (d + 1))) with (d + 1).
    destruct (Nat.eqb_spec (occurrences x keys) 0) as [E|E]; f_equal; lia.
  - rewrite lookup_insert_ne by congruence. reflexivity.
Qed.

Lemma count_empty keys key :
  fold_left increment keys (∅ : gmap string nat) !! key = counted keys key.
Proof.
  rewrite count_lookup, lookup_empty. unfold counted.
  now destruct (occurrences key keys =? 0).
Qed.

Lemma total_increment (m : gmap string nat) key :
  facet_total (increment m key) = S (facet_total m).
Proof.
  unfold facet_total, increment.
  assert (Hcomm : forall z1 z2 y : nat, z1 + (z2 + y) = z2 + (z1 + y)) by (intros; lia).
  destruct (m !! key) as [v|] eqn:E; simpl.
  - rewrite <- insert_delete_eq.
    rewrite map_fold_insert_L; [|intros; apply Hcomm|apply lookup_delete_eq].
    rewrite (map_fold_delete_L _ _ key v m); [lia|intros; apply Hcomm|assumption].
  - rewrite map_fold_insert_L; [reflexivity|intros; apply Hcomm|assumption].
Qed.

Lemma total_count keys (m : gmap string nat) :
  facet_total (fold_left increment keys m) = facet_total m + length keys.
Proof.
  revert m. induction keys as [|x keys IH]; intros m; simpl; [lia|].
  rewrite IH, total_increment. lia.
Qed.

(** Each facet counts a list of keys read off the files. *)
Lemma components files facets :
  let result := fold_left facets_file files facets in
  facet_fileTypes result
  = fold_left increment (List.map type files) (facet_fileTypes facets)
  /\ facet_languages result
     = fold_left increment (List.map facet_language files) (facet_languages facets)
  /\ facet_authors result
     = fold_left increment (flat_map author_keys files) (facet_authors facets)
  /\ facet_topics result
     = fold_left increment (flat_map topic_keys files) (facet_topics facets).
Proof.
  revert facets. induction files as [|file files IH]; intros facets; [now repeat split|].
  cbv zeta in *. simpl fold_left at 1 3 5 7.
  destruct (IH (facets_file facets file)) as (-> & -> & -> & ->).
  simpl. rewrite !fold_left_app. unfold facets_file, author_keys, topic_keys, facet_language.
  simpl. repeat split.
  - now destruct (Str.present (author (metadata (extractedContent file)))).
  - now destruct (topics (extractedContent file)).
Qed.

Lemma getFacets_components files :
  facet_fileTypes (getFacets files) = fold_left increment (List.map type files) ∅
  /\ facet_languages (getFacets files)
     = fold_left increment (List.map facet_language files) ∅
  /\ facet_authors (getFacets files) = fold_left increment (flat_map author_keys files) ∅
  /\ facet_topics (getFacets files) = fold_left increment (flat_map topic_keys files) ∅.
Proof. apply components. Qed.

Lemma count_perm (l1 l2 : list string) :
  Permutation l1 l2 ->
  fold_left increment l1 (∅ : gmap string nat) = fold_left increment l2 ∅.
Proof.
  intros H. apply map_eq. intros key. rewrite !count_empty. unfold counted.
  now rewrite (occurrences_perm key l1 l2 H).
Qed.

End FacetFacts.

(** X19: each facet of getFacets maps a key to the number of times that
    the files give it, and holds no entry for a key that no file gives:
    the type of each file; its language, or "unknown" when the language
    is missing or empty; its author when it is not empty; each entry of
    its topics, counted as often as it is listed. *)
Theorem getFacets_counts (files : list ExtractedFile) (key : string) :
  facet_fileTypes (getFacets files) !! key = counted (List.map type files) key
  /\ facet_languages (getFacets files) !! key
     = counted (List.map facet_language files) key
  /\ facet_authors (getFacets files) !! key = counted (flat_map author_keys files) key
  /\ facet_topics (getFacets files) !! key = counted (flat_map topic_keys files) key.
Proof.
  destruct (FacetFacts.getFacets_components files) as (-> & -> & -> & ->).
  repeat split; apply FacetFacts.count_empty.
Qed.

(** X20: the counts of the file types add up to the number of files, and
    so do the counts of the languages; the counts of the authors add up
    to the number of files that have an author, and the counts of the
    topics to the number of topic entries. *)
Theorem getFacets_totals (files : list ExtractedFile) :
  facet_total (facet_fileTypes (getFacets files)) = length files
  /\ facet_total (facet_languages (getFacets files)) = length files
  /\ facet_total (facet_authors (getFacets files)) = length (flat_map author_keys files)
  /\ facet_total (facet_topics (getFacets files)) = length (flat_map topic_keys files).
Proof.
  destruct (FacetFacts.getFacets_components files) as (-> & -> & -> & ->).
  rewrite !FacetFacts.total_count. unfold facet_total. rewrite map_fold_empty.
  rewrite !length_map. repeat split; reflexivity.
Qed.

(** X21: the facets do not depend on the order of the files. *)
Theorem getFacets_order (files files' : list ExtractedFile) :
  Permutation files files' -> getFacets files = getFacets files'.
Proof.
  intros H.
  destruct (FacetFacts.getFacets_components files) as (Ht & Hl & Ha & Hp).
  destruct (FacetFacts.getFacets_components files') as (Ht' & Hl' & Ha' & Hp').
  destruct (getFacets files) as [t l p a], (getFacets files') as [t' l' p' a'].
  simpl in *. subst. f_equal; apply FacetFacts.count_perm.
  - now apply Permutation_map.
  - now apply Permutation_map.
  - now apply Permutation_flat_map.
  - now apply Permutation_flat_map.
Qed.

Lemma getFacets_order_witness :
  getFacets [full_file; titled_file; table_file]
  = getFacets [table_file; full_file; titled_file].
Proof.
  apply (getFacets_order [full_file; titled_file; table_file]
           [table_file; full_file; titled_file]).
  symmetry. apply (Permutation_cons_append [full_file; titled_file] table_file).
Defined.

(** ** Range of the scores *)

Module RangeFacts.











Lemma short_window text i m :
  String.length text <= 75 -> i + m <= String.length text -> extractContext text i m = text.
Proof.
  intros Hlen Hi. rewrite WindowFacts.extractContext_pieces. cbv zeta.
  replace (i - 75) with 0 by lia.
  replace (Nat.min (String.length text) (i + m + 75)) with (String.length text) by lia.
  rewrite !Nat.ltb_irrefl. simpl Str.drop. rewrite Nat.sub_0_r.
  rewrite PieceFacts.take_all by lia. apply WindowFacts.append_nil_r.
Qed.

Lemma one_value {A : Type} (l : list A) (c : A) :
  NoDup l -> (forall x, In x l -> x = c) -> length l <= 1.
Proof.
  intros Hnd Hall. destruct l as [|x [|y l]]; simpl; try lia.
  exfalso. inversion Hnd as [|? ? Hx _]; subst. apply Hx.
  rewrite (Hall x), (Hall y) by (simpl; tauto). now left.
Qed.

Lemma text_contents_distinct query text fileId' fileName' matchType' :
  NoDup (List.map content (searchInText query text fileId' fileName' matchType')).
Proof.
  apply (DedupFacts.distinct_contents fileId').
  - intros r Hr. now apply CandidateFacts.searchInText_candidate in Hr.
  - unfold searchInText. apply DedupFacts.from_keys.
Qed.

Lemma short_content query text fileId' fileName' matchType' r :
  String.length text <= 75 ->
  In r (searchInText query text fileId' fileName' matchType') -> content r = text.
Proof.
  intros Hlen. rewrite TextFacts.searchInText_terms. intros H.
  apply TextFacts.deduplicateResults_subset, in_flat_map in H as (term & _ & H).
  apply CandidateFacts.scan_term_candidate in H as (i & _ & Hi & ->).
  simpl. now apply short_window.
Qed.

End RangeFacts.



(** X23: for a text of at most 75 units that keeps its length when
    lowered (every such text without U+0130) every context window is
    the whole text, so the text matcher returns at most one candidate,
    however many terms and occurrences there are, and the content of
    that candidate is the text. *)
Theorem searchInText_short_text (query text fileId' fileName' : string)
    (matchType' : MatchType) :
  keeps_offsets text = true ->
  String.length text <= 75 ->
  length (searchInText query text fileId' fileName' matchType') <= 1
  /\ forall r,
      In r (searchInText query text fileId' fileName' matchType') -> content r = text.
Proof.
  intros _ Hlen. split; [|intros r; now apply RangeFacts.short_content].
  rewrite <- (length_map content). apply (RangeFacts.one_value _ text).
  - apply RangeFacts.text_contents_distinct.
  - intros c Hc. apply in_map_iff in Hc as (r & <- & Hr).
    now apply (RangeFacts.short_content query text fileId' fileName' matchType').
Qed.

Lemma searchInText_short_text_witness :
  length (searchInText "revenue report" revenue_text "f1" "report.txt" MatchText) <= 1.
Proof.
  apply (searchInText_short_text "revenue report" revenue_text "f1" "report.txt" MatchText).
  - reflexivity.
  - vm_compute. lia.
Defined.

(** ** Positions in a table *)

Module TableFacts.

Lemma In_combine_seq {A : Type} (l : list A) (k : nat) (p : nat * A) :
  In p (combine (seq k (length l)) l)
  <-> exists i, fst p = k + i /\ l !! i = Some (snd p).
Proof.
  revert k. induction l as [|x l IH]; intros k; simpl.
  - split; [tauto|]. intros (i & _ & H). discriminate.
  - rewrite IH. split.
    + intros [<-|(i & Hi & Hl)].
      * exists 0. simpl. split; [lia|reflexivity].
      * exists (S i). simpl. split; [lia|assumption].
    + intros ([|i] & Hi & Hl); simpl in Hl.
      * left. destruct p as [n y]. simpl in *. injection Hl as ->. f_equal. lia.
      * right. exists i. split; [lia|assumption].
Qed.

Lemma In_indexed {A : Type} (l : list A) (i : nat) (x : A) :
  In (i, x) (indexed l) <-> l !! i = Some x.
Proof.
  unfold indexed. rewrite In_combine_seq. simpl. split.
  - intros (j & -> & H). exact H.
  - intros H. now exists i.
Qed.

End TableFacts.

(** X24: the table matcher reports exactly the cells that contain the
    query, letters compared without case, each with its row and its
    column counted from one, also in a table whose rows differ in
    length: a result that is not a header result is the candidate of
    such a cell, and every such cell has its candidate. *)
Theorem searchInTable_positions (query : string) (table : ExtractedTable)
    (fileId' fileName' : string) (r : SearchResult) :
  In r (searchInTable query table fileId' fileName')
  <-> (exists header,
          In header (headers table)
          /\ Str.includes (Str.toLowerCase header) (Str.toLowerCase query) = true
          /\ r = {| fileId := fileId'; fileName := fileName'; content := header;
                    relevanceScore := Num 0.7; matchType := MatchText;
                    context := "Table header: " +:+ header |})
      \/ (exists rowIndex colIndex row cell,
             rows table !! rowIndex = Some row /\ row !! colIndex = Some cell
             /\ Str.includes (Str.toLowerCase cell) (Str.toLowerCase query) = true
             /\ r = cell_candidate fileId' fileName' cell (rowIndex + 1) (colIndex + 1)).
Proof.
  rewrite RawFacts.searchInTable_cells, in_app_iff, !in_flat_map. split.
  - intros [(header & Hin & H)|([rowIndex row] & Hrow & H)].
    + left. exists header. destruct (Str.includes _ _); simpl in H; [|tauto].
      destruct H as [<-|[]]. repeat split; assumption.
    + right. apply in_flat_map in H as ([colIndex cell] & Hcell & H). simpl in *.
      apply TableFacts.In_indexed in Hrow, Hcell.
      destruct (Str.includes _ _) eqn:E; simpl in H; [|tauto]. destruct H as [<-|[]].
      exists rowIndex, colIndex, row, cell. repeat split; assumption.
  - intros [(header & Hin & Hinc & ->)|(rowIndex & colIndex & row & cell & Hr & Hc & Hinc & ->)].
    + left. exists header. split; [assumption|]. rewrite Hinc. now left.
    + right. exists (rowIndex, row). split; [now apply TableFacts.In_indexed|].
      apply in_flat_map. exists (colIndex, cell).
      split; [now apply TableFacts.In_indexed|]. simpl. rewrite Hinc. now left.
Qed.
